(** * nsctl.processes: command assembly, execution and process-tree utilities

    A shallow embedding of [src/nsctl/processes.py].  Python values are
    modelled by ordinary Rocq data, exceptions by the [result] type, and the
    side effects of the module (lines printed, child processes started) by a
    trace of events threaded through the monad [M].  Everything the module
    asks of its surroundings (the search path, the identity helpers of
    [nsctl.utils], the behaviour of child processes, the process table) is
    collected in the record [OS]. *)

From Stdlib Require Import ZArith String Ascii List QArith.QArith_base Lia.
From stdpp Require Import base option list strings pretty gmap.

Local Open Scope string_scope.
Local Open Scope Z_scope.
Local Open Scope list_scope.

(** ** Exceptions and results *)

Inductive exn : Type :=
| ValueError (msg : string)
| RuntimeError (msg : string)
| KeyError (msg : string)
| OSError (msg : string)
| RecursionError
| CalledProcessError (returncode : Z) (cmd : list string)
                     (output stderr : option string)
| TimeoutExpired (cmd : list string) (timeout : Q)
| NoSuchProcess (pid : Z)
| AccessDenied (pid : Z).

Inductive result (A : Type) : Type :=
| Ok (a : A)
| Raise (e : exn).
Arguments Ok {A} a.
Arguments Raise {A} e.

#[global] Instance result_ret : MRet result := fun A a => Ok a.
#[global] Instance result_bind : MBind result := fun A B f r =>
  match r with
  | Ok a => f a
  | Raise e => Raise e
  end.
#[global] Instance result_fmap : FMap result := fun A B f r =>
  match r with
  | Ok a => Ok (f a)
  | Raise e => Raise e
  end.

(** [str(n)] for a Python int. *)
Definition str (n : Z) : string := pretty n.

(** ** shlex.split

    The standard library tokenizer as [_exec_cmd] calls it:
    [shlex.split(cmd)] runs the POSIX-mode lexer with [whitespace_split] set
    and no comment characters.  The lexer state is [' '] (between words),
    ['a'] (inside a word), a quote character, or the escape character
    together with the state to return to. *)
Module shlex.

Inductive state : Type :=
| Space
| Word
| Quote (q : ascii)
| Escape (escapedstate : state).

Definition whitespace (c : ascii) : bool :=
  bool_decide (c ∈ [" "%char; "009"%char; "013"%char; "010"%char]).
Definition quotes (c : ascii) : bool :=
  bool_decide (c ∈ ["'"%char; "034"%char]).
Definition escape (c : ascii) : bool := bool_decide (c = "\"%char).
Definition escapedquotes (c : ascii) : bool := bool_decide (c = "034"%char).

Definition add (token : string) (c : ascii) : string :=
  token +:+ String c EmptyString.

Definition nonempty (token : string) : bool :=
  match token with
  | EmptyString => false
  | String _ _ => true
  end.

(** [read st token quoted s] runs the token loop over the remaining input
    [s] and collects every token handed out until end of input. *)
Fixpoint read (st : state) (token : string) (quoted : bool) (s : string)
  : result (list string) :=
  match s with
  | EmptyString =>
      match st with
      | Space | Word => Ok (if nonempty token || quoted then [token] else [])
      | Quote _ => Raise (ValueError "No closing quotation")
      | Escape _ => Raise (ValueError "No escaped character")
      end
  | String c rest =>
      match st with
      | Space =>
          if whitespace c then
            if nonempty token || quoted
            then cons token <$> read Space EmptyString false rest
            else read Space token quoted rest
          else if escape c then read (Escape Word) token quoted rest
          else if quotes c then read (Quote c) token quoted rest
          else read Word (String c EmptyString) quoted rest
      | Word =>
          if whitespace c then
            if nonempty token || quoted
            then cons token <$> read Space EmptyString false rest
            else read Space token quoted rest
          else if quotes c then read (Quote c) token quoted rest
          else if escape c then read (Escape Word) token quoted rest
          else read Word (add token c) quoted rest
      | Quote q =>
          if bool_decide (c = q) then read Word token true rest
          else if escape c && escapedquotes q
               then read (Escape (Quote q)) token true rest
          else read (Quote q) (add token c) true rest
      | Escape escapedstate =>
          let token :=
            match escapedstate with
            | Quote q =>
                if negb (escape c) && negb (bool_decide (c = q))
                then add token "\"%char else token
            | _ => token
            end in
          read escapedstate (add token c) quoted rest
      end
  end.

Definition split (s : string) : result (list string) :=
  read Space EmptyString false s.

End shlex.

(** ** Data of the module *)

(** [cmd: list[str] | str] *)
Inductive command : Type :=
| CmdStr (s : string)
| CmdList (l : list string).

(** [Escalate = Literal["sudo", "pkexec", None]] *)
Inductive helper : Type := sudo | pkexec.
Definition Escalate : Type := option helper.

Definition helper_name (h : helper) : string :=
  match h with
  | sudo => "sudo"
  | pkexec => "pkexec"
  end.

(** [env: Mapping[str, str]] *)
Abbreviation environ := (gmap string string).

(** Modelled from the spec: [nsctl.config.NSInfo], which the module imports;
    the module reads its [pid] and hands its [namespaces] (the namespace
    operation kinds) to [check_ops]. *)
Record NSInfo : Type := {
  ns_info_pid : Z;
  namespaces : list string
}.

(** How a child's standard stream is connected: [subprocess.DEVNULL], [None]
    (inherited from the caller) or a pipe read by the caller. *)
Inductive stdio : Type := DEVNULL | INHERIT | PIPE.

Record CompletedProcess : Type := {
  cp_args : list string;
  returncode : Z;
  stdout : option string;
  stderr : option string
}.

Record Popen : Type := {
  popen_args : list string;
  popen_pid : Z
}.

(** What [_exec_cmd] returns: a [CompletedProcess], a [Popen] or [None]. *)
Inductive outcome : Type :=
| Completed (cp : CompletedProcess)
| Detached (p : Popen)
| NoProcess.

(** [f"{type(result)}"] *)
Definition type_repr (r : outcome) : string :=
  match r with
  | Completed _ => "<class 'subprocess.CompletedProcess'>"
  | Detached _ => "<class 'subprocess.Popen'>"
  | NoProcess => "<class 'NoneType'>"
  end.

(** [psutil.Process] *)
Record Process : Type := { pid : Z }.

(** A Python value that is a [bool] or [None], and its truth value. *)
Inductive bool_or_none : Type :=
| PyBool (b : bool)
| PyNone.

Definition truth (v : bool_or_none) : bool :=
  match v with
  | PyBool b => b
  | PyNone => false
  end.

(** ** The surroundings *)

(** Exit of a child that ran to completion. *)
Record child_exit : Type := {
  exit_code : Z;
  child_stdout : string;
  child_stderr : string
}.

(** One row of the process table as [psutil] sees it. *)
Record proc_entry : Type := {
  children_pids : list Z;
  accessible : bool;
  running : bool
}.

Record OS : Type := {
  (** [shutil.which] *)
  which : string -> option string;
  (** [os.getcwd()] *)
  getcwd : string;
  (** [get_uid], [get_gid] and [check_ops], imported from [nsctl.utils] and
      taken as given.  The identity helpers fail on an unknown user;
      [check_ops] tells whether the caller may perform the namespace
      operations without elevation. *)
  get_uid : string -> result Z;
  get_gid : string -> result Z;
  check_ops : list string -> bool;
  (** a child run in the foreground: an [OSError] when it cannot be started,
      its exit otherwise *)
  os_run : list string -> option environ -> result child_exit;
  (** a child started in the background: an [OSError] or its pid *)
  os_popen : list string -> option environ -> result Z;
  (** waiting for a background child for at most the given number of
      seconds: its exit code when it ends in time *)
  os_wait : Z -> Q -> option Z;
  (** [os.path.exists] *)
  path_exists : string -> bool;
  (** the process table read by [psutil] *)
  proc_table : gmap Z proc_entry
}.

(** ** Effects *)

Inductive event : Type :=
| Print (line : string)
| SpawnRun (args : list string) (capture_output : bool)
           (env : option environ) (check : bool)
| SpawnPopen (args : list string) (stdin stdout stderr : stdio)
             (env : option environ) (start_new_session : bool).

Definition trace : Type := list event.

Definition is_spawn (e : event) : bool :=
  match e with
  | Print _ => false
  | SpawnRun _ _ _ _ | SpawnPopen _ _ _ _ _ _ => true
  end.

(** The processes started along a trace. *)
Definition spawned (t : trace) : list event := List.filter is_spawn t.

(** A computation reads the events so far and returns a value or raises,
    together with the extended trace. *)
Definition M (A : Type) : Type := trace -> result A * trace.

#[global] Instance M_ret : MRet M := fun A a t => (Ok a, t).
#[global] Instance M_bind : MBind M := fun A B f m t =>
  match m t with
  | (Ok a, t') => f a t'
  | (Raise e, t') => (Raise e, t')
  end.

Definition raise {A : Type} (e : exn) : M A := fun t => (Raise e, t).
Definition lift {A : Type} (r : result A) : M A := fun t => (r, t).
Definition emit (e : event) : M unit := fun t => (Ok tt, t ++ [e]).
Definition print (line : string) : M unit := emit (Print line).

(** [" ".join(args)] *)
Definition join (args : list string) : string := String.concat " " args.

(** ** The library calls of the module *)

(** [subprocess.Popen(args, stdout=…, stderr=…, stdin=…, env=…,
    start_new_session=…, text=True)] *)
Definition subprocess_Popen (os : OS) (args : list string)
    (stdin stdout stderr : stdio) (env : option environ)
    (start_new_session : bool) : M Popen :=
  emit (SpawnPopen args stdin stdout stderr env start_new_session) ;;
  child ← lift (os_popen os args env) ;
  mret {| popen_args := args; popen_pid := child |}.

(** [subprocess.run(args, text=True, capture_output=…, env=…, check=…)]:
    the child runs to its end; with [check] a non-zero exit code raises
    [CalledProcessError]; the output is kept only when captured. *)
Definition subprocess_run (os : OS) (args : list string)
    (capture_output : bool) (env : option environ) (check : bool)
  : M CompletedProcess :=
  emit (SpawnRun args capture_output env check) ;;
  child ← lift (os_run os args env) ;
  let out := if capture_output then Some (child_stdout child) else None in
  let err := if capture_output then Some (child_stderr child) else None in
  if check && negb (exit_code child =? 0)
  then raise (CalledProcessError (exit_code child) args out err)
  else mret {| cp_args := args; returncode := exit_code child;
               stdout := out; stderr := err |}.

(** [process.wait(timeout=…)] *)
Definition Popen_wait (os : OS) (process : Popen) (timeout : Q) : result Z :=
  match os_wait os (popen_pid process) timeout with
  | Some code => Ok code
  | None => Raise (TimeoutExpired (popen_args process) timeout)
  end.

(** [psutil.Process(pid)] *)
Definition psutil_Process (os : OS) (n : Z) : result Process :=
  match proc_table os !! n with
  | None => Raise (NoSuchProcess n)
  | Some entry =>
      if accessible entry then Ok {| pid := n |} else Raise (AccessDenied n)
  end.

(** [process.children()] *)
Definition children (os : OS) (process : Process) : list Process :=
  match proc_table os !! pid process with
  | None => []
  | Some entry => Build_Process <$> children_pids entry
  end.

(** [process.is_running()] *)
Definition is_running (os : OS) (process : Process) : bool :=
  match proc_table os !! pid process with
  | None => false
  | Some entry => running entry
  end.

(** ** processes.py *)

(** Truth value of an optional string: [None] and [''] are false. *)
Definition truthy (s : option string) : option string :=
  match s with
  | Some (String _ _ as v) => Some v
  | _ => None
  end.

(** Lines 46 to 49 of [_exec_cmd]: the caller's command as a list. *)
Definition tokenize (cmd : command) : result (list string) :=
  match cmd with
  | CmdStr s => shlex.split s
  | CmdList l => Ok l
  end.

(** Lines 52 to 61: the command wrapped for [nsenter]. *)
Definition nsenter (os : OS) (ns_pid : option Z)
    (working_dir as_user : option string) (cmd_args : list string)
  : result (list string) :=
  match ns_pid with
  | None => Ok cmd_args
  | Some p =>
      let ns_cmd := ["nsenter"; "-t"; str p; "--all"] in
      let ns_cmd :=
        match truthy working_dir with
        | Some wd => ns_cmd ++ ["--wd=" +:+ wd]
        | None => ns_cmd
        end in
      ns_cmd ←
        match truthy as_user with
        | Some user =>
            uid ← get_uid os user ;
            gid ← get_gid os user ;
            Ok (ns_cmd ++ ["--setuid=" +:+ str uid; "--setgid=" +:+ str gid])
        | None => Ok ns_cmd
        end ;
      let ns_cmd := ns_cmd ++ ["--"] in
      Ok (ns_cmd ++ cmd_args)
  end.

(** Lines 64 to 68: the command wrapped for the escalation helper. *)
Definition escalation (os : OS) (escalate : Escalate) (cmd_args : list string)
  : result (list string) :=
  match escalate with
  | None => Ok cmd_args
  | Some e =>
      match which os (helper_name e) with
      | None =>
          Raise (RuntimeError
                   (helper_name e +:+ " not found in PATH; cannot escalate"))
      | Some helper => Ok ([helper; "-n"] ++ cmd_args)
      end
  end.

(** Lines 46 to 68: the argument list [cmd_args] as it stands at line 70. *)
Definition assemble (os : OS) (cmd : command) (ns_pid : option Z)
    (working_dir : option string) (escalate : Escalate)
    (as_user : option string) : result (list string) :=
  cmd_args ← tokenize cmd ;
  cmd_args ← nsenter os ns_pid working_dir as_user cmd_args ;
  escalation os escalate cmd_args.

Definition _exec_cmd (os : OS) (cmd : command)
    (detach capture_output check dry_run verbose : bool)
    (env : option environ) (ns_pid : option Z) (working_dir : option string)
    (escalate : Escalate) (as_user : option string) (passthrough : bool)
  : M outcome :=
  if detach && capture_output
  then raise (ValueError "Cannot use detach=True with capture_output=True.")
  else
    cmd_args ← lift (assemble os cmd ns_pid working_dir escalate as_user) ;
    if dry_run then
      print ("DRY-RUN: " +:+ join cmd_args) ;;
      mret NoProcess
    else if detach then
      let io := if passthrough then INHERIT else DEVNULL in
      (if verbose then print ("DETACH: " +:+ join cmd_args) else mret tt) ;;
      process ← subprocess_Popen os cmd_args io io io env true ;
      mret (Detached process)
    else
      (if verbose then print ("RUN: " +:+ join cmd_args) else mret tt) ;;
      completed ← subprocess_run os cmd_args capture_output env check ;
      mret (Completed completed).

Definition handle_ns (os : OS) (ns : option NSInfo) (escalate : Escalate)
  : option Z * Escalate :=
  match ns with
  | None => (None, escalate)
  | Some ns =>
      let escalate :=
        match escalate with
        | None => if negb (check_ops os (namespaces ns)) then Some sudo else None
        | Some e => Some e
        end in
      (Some (ns_info_pid ns), escalate)
  end.

Definition run (os : OS) (cmd : command) (dry_run verbose : bool)
    (env : option environ) (escalate : Escalate) (ns : option NSInfo)
    (as_user : option string) : M unit :=
  let work_dir := getcwd os in
  let '(ns_pid, escalate) := handle_ns os ns escalate in
  _exec_cmd os cmd false false false dry_run verbose env ns_pid
            (Some work_dir) escalate as_user false ;;
  mret tt.

Definition run_check (os : OS) (cmd : command) (dry_run verbose : bool)
    (env : option environ) (escalate : Escalate) (ns : option NSInfo)
    (as_user : option string) : M unit :=
  let work_dir := getcwd os in
  let '(ns_pid, escalate) := handle_ns os ns escalate in
  _exec_cmd os cmd false false true dry_run verbose env ns_pid
            (Some work_dir) escalate as_user false ;;
  mret tt.

Definition run_check_output (os : OS) (cmd : command) (dry_run verbose : bool)
    (env : option environ) (escalate : Escalate) (ns : option NSInfo)
    (as_user : option string) : M (option string) :=
  let work_dir := getcwd os in
  let '(ns_pid, escalate) := handle_ns os ns escalate in
  result ← _exec_cmd os cmd false true true dry_run verbose env ns_pid
                     (Some work_dir) escalate as_user false ;
  match result with
  | Completed completed => mret (stdout completed)
  | _ => raise (RuntimeError
                  ("Expected CompletedProcess, got " +:+ type_repr result))
  end.

Definition run_code_output (os : OS) (cmd : command) (dry_run verbose : bool)
    (env : option environ) (escalate : Escalate) (ns : option NSInfo)
    (as_user : option string) : M (Z * option string) :=
  let work_dir := getcwd os in
  let '(ns_pid, escalate) := handle_ns os ns escalate in
  result ← _exec_cmd os cmd false true true dry_run verbose env ns_pid
                     (Some work_dir) escalate as_user false ;
  match result with
  | Completed completed => mret (returncode completed, stdout completed)
  | _ => raise (RuntimeError
                  ("Expected CompletedProcess, got " +:+ type_repr result))
  end.

Definition run_check_code (os : OS) (cmd : command) (dry_run verbose : bool)
    (env : option environ) (escalate : Escalate) (ns : option NSInfo)
    (as_user : option string) : M Z :=
  let work_dir := getcwd os in
  let '(ns_pid, escalate) := handle_ns os ns escalate in
  result ← _exec_cmd os cmd false false true dry_run verbose env ns_pid
                     (Some work_dir) escalate as_user false ;
  match result with
  | Completed completed => mret (returncode completed)
  | _ => raise (RuntimeError
                  ("Expected CompletedProcess, got " +:+ type_repr result))
  end.

Definition run_code_passthrough (os : OS) (cmd : command)
    (dry_run verbose : bool) (env : option environ) (escalate : Escalate)
    (ns : option NSInfo) (as_user : option string) : M Z :=
  let work_dir := getcwd os in
  let '(ns_pid, escalate) := handle_ns os ns escalate in
  result ← _exec_cmd os cmd false false false dry_run verbose env ns_pid
                     (Some work_dir) escalate as_user true ;
  match result with
  | Completed completed => mret (returncode completed)
  | _ => raise (RuntimeError
                  ("Expected CompletedProcess, got " +:+ type_repr result))
  end.

Definition detach (os : OS) (cmd : command) (dry_run verbose : bool)
    (env : option environ) (escalate : Escalate) (ns : option NSInfo)
    (as_user : option string) : M Popen :=
  let work_dir := getcwd os in
  let '(ns_pid, escalate) := handle_ns os ns escalate in
  result ← _exec_cmd os cmd true false false dry_run verbose env ns_pid
                     (Some work_dir) escalate as_user false ;
  match result with
  | Detached process => mret process
  | _ => raise (RuntimeError ("Expected Popen, got " +:+ type_repr result))
  end.

Definition detach_and_check (os : OS) (cmd : command) (dry_run verbose : bool)
    (env : option environ) (escalate : Escalate) (ns : option NSInfo)
    (as_user : option string) (wait_time : Q) : M Popen :=
  process ← detach os cmd dry_run verbose env escalate ns as_user ;
  match Popen_wait os process wait_time with
  | Ok code =>
      raise (RuntimeError
               ("Detached process exited immediately, indicating failure. returncode was: "
                +:+ str code))
  | Raise (TimeoutExpired _ _) => mret process
  | Raise e => raise e
  end.

(** The recursion of [find_bottom_children] is bounded by the interpreter's
    recursion limit [depth]; going past it raises [RecursionError]. *)
Fixpoint find_bottom_children (os : OS) (depth : nat) (n : Z)
  : result (list Process) :=
  match depth with
  | O => Raise RecursionError
  | S depth =>
      match psutil_Process os n with
      | Raise (NoSuchProcess _) | Raise (AccessDenied _) => Ok []
      | Raise e => Raise e
      | Ok process =>
          match children os process with
          | [] => Ok [process]
          | kids =>
              foldl (fun bottom child =>
                       bottom ← bottom ;
                       below ← find_bottom_children os depth (pid child) ;
                       Ok (bottom ++ below))
                    (Ok []) kids
          end
      end
  end.

Definition process_exists (os : OS) (n : Z) : result bool_or_none :=
  if path_exists os ("/proc/" +:+ str n) then
    match psutil_Process os n with
    | Ok process => Ok (PyBool (is_running os process))
    | Raise (NoSuchProcess _) => Ok (PyBool false)
    | Raise e => Raise e
    end
  else Ok PyNone.

(** [handle_ns] followed by the assembly, as every caller chains them. *)
Definition assemble_for (os : OS) (cmd : command) (ns : option NSInfo)
    (escalate : Escalate) (working_dir as_user : option string)
  : result (list string) :=
  let '(ns_pid, escalate) := handle_ns os ns escalate in
  assemble os cmd ns_pid working_dir escalate as_user.

(** ** The process tree

    The tree that [find_bottom_children] walks, read off the process table:
    [child_of os c p] when [p] can be inspected and lists [c] among its
    children; a leaf is a process that can be inspected and has no
    children. *)

Definition inspectable (os : OS) (n : Z) : Prop :=
  psutil_Process os n = Ok {| pid := n |}.

Definition child_of (os : OS) (c p : Z) : Prop :=
  inspectable os p /\ {| pid := c |} ∈ children os {| pid := p |}.

Definition leaf (os : OS) (n : Z) : Prop :=
  inspectable os n /\ children os {| pid := n |} = [].

(** [q] is reached from [root] by following children, and is a leaf. *)
Definition leaf_descendant (os : OS) (root q : Z) : Prop :=
  rtc (fun p c => child_of os c p) root q /\ leaf os q.

(** What a finished walk below [n] looks like from recursion depth [depth]
    on. *)
Definition walked (os : OS) (n : Z) (depth : nat) (bottom : list Process) : Prop :=
  (forall d, (depth <= d)%nat -> find_bottom_children os d n = Ok bottom) /\
  (forall q, q ∈ pid <$> bottom <-> leaf_descendant os n q).

(** ** Plain words

    The characters that the tokenizer takes literally, the command words
    made of them, and the strings free of quotes and backslashes. *)

Definition plain (c : ascii) : bool :=
  negb (shlex.whitespace c) && negb (shlex.quotes c) && negb (shlex.escape c).

Fixpoint all_plain (s : string) : bool :=
  match s with
  | EmptyString => true
  | String c rest => plain c && all_plain rest
  end.

Definition plain_word (s : string) : bool := shlex.nonempty s && all_plain s.

Fixpoint unquoted (s : string) : bool :=
  match s with
  | EmptyString => true
  | String c rest =>
      negb (shlex.quotes c) && negb (shlex.escape c) && unquoted rest
  end.

(** A process table shaped like a forest: no process is listed twice among
    the children of one parent, and no process has two parents. *)
Definition forest (os : OS) : Prop :=
  (forall p entry,
      proc_table os !! p = Some entry -> NoDup (children_pids entry)) /\
  (forall c p1 p2, child_of os c p1 -> child_of os c p2 -> p1 = p2).

(** ** Sample surroundings

    A small machine on which the statements below are exercised: [sudo] is
    installed, [pkexec] is not; user [alice] is known; foreground children
    exit with the number of their arguments minus one, background children
    exit at once with code 0; the process table holds [init]
    with two childless children and one process that cannot be inspected. *)
Module Sample.

Definition table : gmap Z proc_entry :=
  {[ 1 := {| children_pids := [20; 30]; accessible := true; running := true |};
     20 := {| children_pids := []; accessible := true; running := true |};
     30 := {| children_pids := []; accessible := true; running := false |};
     40 := {| children_pids := [41]; accessible := false; running := true |} ]}.

Definition machine : OS := {|
  which name := if String.eqb name "sudo" then Some "/usr/bin/sudo" else None;
  getcwd := "/srv";
  get_uid user :=
    if String.eqb user "alice" then Ok 1000 else Raise (KeyError user);
  get_gid user :=
    if String.eqb user "alice" then Ok 100 else Raise (KeyError user);
  check_ops _ := false;
  os_run args _ :=
    Ok {| exit_code := Z.of_nat (length args) - 1;
          child_stdout := "out"; child_stderr := "" |};
  os_popen _ _ := Ok 4242;
  os_wait child _ := if child =? 4242 then Some 0 else None;
  path_exists path := String.eqb path "/proc/1";
  proc_table := table
|}.

(** The same machine with a search path on which [sudo] resolves to the bare
    name, and whose background children keep running. *)
Definition bare_path : OS := {|
  which name := if String.eqb name "sudo" then Some "sudo" else None;
  getcwd := getcwd machine;
  get_uid := get_uid machine;
  get_gid := get_gid machine;
  check_ops := check_ops machine;
  os_run := os_run machine;
  os_popen := os_popen machine;
  os_wait _ _ := None;
  path_exists := path_exists machine;
  proc_table := proc_table machine
|}.

Definition target : NSInfo := {| ns_info_pid := 1234; namespaces := ["net"] |}.

End Sample.

(** A second machine: no escalation helper is installed, every [/proc]
    path exists, and the process table holds two processes that list each
    other as children besides one that cannot be inspected. *)
Module Lab.

Definition table : gmap Z proc_entry :=
  {[ 1 := {| children_pids := [2]; accessible := true; running := true |};
     2 := {| children_pids := [1]; accessible := true; running := true |};
     40 := {| children_pids := []; accessible := false; running := true |} ]}.

Definition machine : OS := {|
  which _ := None;
  getcwd := "/";
  get_uid := get_uid Sample.machine;
  get_gid _ := Raise (KeyError "no group");
  check_ops _ := false;
  os_run := os_run Sample.machine;
  os_popen _ _ := Raise (OSError "cannot fork");
  os_wait := os_wait Sample.machine;
  path_exists _ := true;
  proc_table := table
|}.

End Lab.

(** ** Reasoning about computations *)

Ltac unfold_monad :=
  unfold mbind, mret, M_bind, M_ret, result_bind, result_ret,
    raise, lift, print, emit in *.

(** [_exec_cmd] seen as its three stages: validation, assembly, dispatch. *)
Lemma exec_cmd_stages os cmd detach capture_output check dry_run verbose env
    ns_pid working_dir escalate as_user passthrough t :
  _exec_cmd os cmd detach capture_output check dry_run verbose env ns_pid
            working_dir escalate as_user passthrough t =
  if detach && capture_output
  then (Raise (ValueError "Cannot use detach=True with capture_output=True."),
        t)
  else
    match assemble os cmd ns_pid working_dir escalate as_user with
    | Raise e => (Raise e, t)
    | Ok cmd_args =>
        if dry_run
        then (Ok NoProcess, t ++ [Print ("DRY-RUN: " +:+ join cmd_args)])
        else if detach then
          let io := if passthrough then INHERIT else DEVNULL in
          let t1 :=
            if verbose then t ++ [Print ("DETACH: " +:+ join cmd_args)]
            else t in
          let t2 := t1 ++ [SpawnPopen cmd_args io io io env true] in
          match os_popen os cmd_args env with
          | Ok child =>
              (Ok (Detached {| popen_args := cmd_args; popen_pid := child |}),
               t2)
          | Raise e => (Raise e, t2)
          end
        else
          let t1 :=
            if verbose then t ++ [Print ("RUN: " +:+ join cmd_args)] else t in
          let t2 := t1 ++ [SpawnRun cmd_args capture_output env check] in
          match os_run os cmd_args env with
          | Raise e => (Raise e, t2)
          | Ok child =>
              let out :=
                if capture_output then Some (child_stdout child) else None in
              let err :=
                if capture_output then Some (child_stderr child) else None in
              if check && negb (exit_code child =? 0)
              then (Raise (CalledProcessError (exit_code child) cmd_args
                                              out err), t2)
              else (Ok (Completed {| cp_args := cmd_args;
                                     returncode := exit_code child;
                                     stdout := out; stderr := err |}), t2)
          end
    end.
Proof.
  unfold _exec_cmd, subprocess_Popen, subprocess_run. unfold_monad.
  destruct (detach && capture_output); [reflexivity|].
  destruct (assemble os cmd ns_pid working_dir escalate as_user)
    as [cmd_args|e]; [|reflexivity].
  destruct dry_run; [reflexivity|].
  destruct detach.
  - destruct verbose; cbn; destruct (os_popen os cmd_args env); reflexivity.
  - destruct verbose; cbn; destruct (os_run os cmd_args env) as [child|];
      try reflexivity;
      destruct (check && negb (exit_code child =? 0)); reflexivity.
Qed.

(** Outside dry-run the executor's outcome has the kind the mode asks for. *)
Lemma exec_cmd_outcome_kind os cmd detach capture_output check dry_run verbose
    env ns_pid working_dir escalate as_user passthrough t r t' :
  _exec_cmd os cmd detach capture_output check dry_run verbose env ns_pid
            working_dir escalate as_user passthrough t = (Ok r, t') ->
  if dry_run then r = NoProcess
  else if detach then exists process, r = Detached process
  else exists completed, r = Completed completed.
Proof.
  rewrite exec_cmd_stages.
  destruct (detach && capture_output); [discriminate|].
  destruct (assemble os cmd ns_pid working_dir escalate as_user)
    as [cmd_args|]; [|discriminate].
  destruct dry_run; [congruence|].
  destruct detach; cbn.
  - destruct (os_popen os cmd_args env); [|discriminate].
    intros [= <- _]. eauto.
  - destruct (os_run os cmd_args env) as [child|]; [|discriminate].
    destruct (check && negb (exit_code child =? 0)); [discriminate|].
    intros [= <- _]. eauto.
Qed.

(** With [check] set, a completed foreground run has exit code 0. *)
Lemma exec_cmd_checked_code os cmd capture_output dry_run verbose env ns_pid
    working_dir escalate as_user passthrough t completed t' :
  _exec_cmd os cmd false capture_output true dry_run verbose env ns_pid
            working_dir escalate as_user passthrough t
  = (Ok (Completed completed), t') ->
  returncode completed = 0.
Proof.
  rewrite exec_cmd_stages. cbn.
  destruct (assemble os cmd ns_pid working_dir escalate as_user)
    as [cmd_args|]; [|discriminate].
  destruct dry_run; [discriminate|].
  destruct (os_run os cmd_args env) as [child|]; [|discriminate].
  destruct (exit_code child =? 0) eqn:Hcode; cbn; [|discriminate].
  intros [= <- _]. cbn. lia.
Qed.

(** ** Tokenizer *)

Example split_words : shlex.split "ls  -l /tmp" = Ok ["ls"; "-l"; "/tmp"].
Proof. reflexivity. Qed.

Example split_quotes_and_escapes :
  shlex.split "echo 'a b'  c\ d ''  x'y'z" = Ok ["echo"; "a b"; "c d"; ""; "xyz"].
Proof. reflexivity. Qed.

Example split_open_quote :
  shlex.split "echo 'a b" = Raise (ValueError "No closing quotation").
Proof. reflexivity. Qed.

Example split_blank : shlex.split "   " = Ok [].
Proof. reflexivity. Qed.

(** ** Command assembly *)

(** C1: whenever [_exec_cmd] assembles an argument list, it is the
    escalation tokens (the resolved helper and [-n], or nothing when no
    escalation is asked for), then the namespace-entry tokens ([nsenter -t
    pid --all], its options and the closing [--], or nothing when no
    namespace is given), then the caller's own tokens as the final suffix;
    either layer is left out independently of the other. *)
Theorem assemble_layers os cmd ns_pid working_dir escalate as_user argv :
  assemble os cmd ns_pid working_dir escalate as_user = Ok argv ->
  exists helper_tokens nsenter_tokens user_tokens,
    argv = helper_tokens ++ nsenter_tokens ++ user_tokens /\
    tokenize cmd = Ok user_tokens /\
    match escalate with
    | None => helper_tokens = []
    | Some e =>
        exists path,
          which os (helper_name e) = Some path /\
          helper_tokens = [path; "-n"]
    end /\
    match ns_pid with
    | None => nsenter_tokens = []
    | Some p =>
        exists options,
          nsenter_tokens =
            ["nsenter"; "-t"; str p; "--all"] ++ options ++ ["--"]
    end.
Proof.
  unfold assemble. unfold_monad.
  destruct (tokenize cmd) as [user_tokens|]; [|discriminate].
  intros Hasm.
  assert (Hns : exists nsenter_tokens,
             nsenter os ns_pid working_dir as_user user_tokens
             = Ok (nsenter_tokens ++ user_tokens) /\
             match ns_pid with
             | None => nsenter_tokens = []
             | Some p =>
                 exists options,
                   nsenter_tokens =
                     ["nsenter"; "-t"; str p; "--all"] ++ options ++ ["--"]
             end).
  { destruct (nsenter os ns_pid working_dir as_user user_tokens)
      as [wrapped|] eqn:Hwrapped; [|discriminate].
    clear Hasm. unfold nsenter in Hwrapped. unfold_monad.
    destruct ns_pid as [p|].
    - destruct (truthy working_dir) as [wd|], (truthy as_user) as [user|].
      + destruct (get_uid os user) as [uid|]; [|discriminate].
        destruct (get_gid os user) as [gid|]; [|discriminate].
        injection Hwrapped as <-.
        exists (["nsenter"; "-t"; str p; "--all"] ++
                ["--wd=" +:+ wd; "--setuid=" +:+ str uid;
                 "--setgid=" +:+ str gid] ++ ["--"]).
        split; [reflexivity|eauto].
      + injection Hwrapped as <-.
        exists (["nsenter"; "-t"; str p; "--all"] ++
                ["--wd=" +:+ wd] ++ ["--"]).
        split; [reflexivity|eauto].
      + destruct (get_uid os user) as [uid|]; [|discriminate].
        destruct (get_gid os user) as [gid|]; [|discriminate].
        injection Hwrapped as <-.
        exists (["nsenter"; "-t"; str p; "--all"] ++
                ["--setuid=" +:+ str uid; "--setgid=" +:+ str gid] ++ ["--"]).
        split; [reflexivity|eauto].
      + injection Hwrapped as <-.
        exists (["nsenter"; "-t"; str p; "--all"] ++ [] ++ ["--"]).
        split; [reflexivity|eauto].
    - injection Hwrapped as <-. exists []. split; reflexivity. }
  destruct Hns as (nsenter_tokens & Hwrapped & Hshape).
  rewrite Hwrapped in Hasm. unfold escalation in Hasm.
  destruct escalate as [e|].
  - destruct (which os (helper_name e)) as [path|] eqn:Hwhich; [|discriminate].
    injection Hasm as <-.
    exists [path; "-n"], nsenter_tokens, user_tokens. eauto 6.
  - injection Hasm as <-.
    exists [], nsenter_tokens, user_tokens. eauto 6.
Qed.

Lemma assemble_layers_witness :
  exists helper_tokens nsenter_tokens user_tokens,
    ["/usr/bin/sudo"; "-n"; "nsenter"; "-t"; "1234"; "--all"; "--wd=/srv";
     "--setuid=1000"; "--setgid=100"; "--"; "ls"; "-l"]
    = helper_tokens ++ nsenter_tokens ++ user_tokens /\
    tokenize (CmdStr "ls -l") = Ok user_tokens /\
    (exists path,
        which Sample.machine (helper_name sudo) = Some path /\
        helper_tokens = [path; "-n"]) /\
    (exists options,
        nsenter_tokens =
          ["nsenter"; "-t"; str 1234; "--all"] ++ options ++ ["--"]).
Proof.
  apply (assemble_layers Sample.machine (CmdStr "ls -l") (Some 1234)
           (Some "/srv") (Some sudo) (Some "alice")).
  reflexivity.
Defined.

(** C2, as amended: for the command string [ls], a namespace target with pid
    1234, no explicit escalation and [check_ops] refusing the target's
    operations, with no working directory and no user passed on, the
    assembled list is the path that the search path resolves [sudo] to,
    followed by [-n nsenter -t 1234 --all -- ls]. *)
Theorem scenario_ls_in_namespace os ns path :
  ns_info_pid ns = 1234 ->
  check_ops os (namespaces ns) = false ->
  which os "sudo" = Some path ->
  assemble_for os (CmdStr "ls") (Some ns) None None None
  = Ok [path; "-n"; "nsenter"; "-t"; "1234"; "--all"; "--"; "ls"].
Proof.
  intros Hpid Hops Hwhich.
  unfold assemble_for, handle_ns, assemble, escalation. cbn.
  rewrite Hops, Hpid. cbn. rewrite Hwhich. reflexivity.
Qed.

Lemma scenario_ls_in_namespace_witness :
  assemble_for Sample.bare_path (CmdStr "ls") (Some Sample.target)
               None None None
  = Ok ["sudo"; "-n"; "nsenter"; "-t"; "1234"; "--all"; "--"; "ls"].
Proof.
  apply (scenario_ls_in_namespace Sample.bare_path Sample.target "sudo");
    reflexivity.
Defined.

(** C2, as stated, fails on a machine whose search path resolves [sudo] to
    [/usr/bin/sudo]: the first token is the resolved path, not the bare
    name. *)
Lemma scenario_ls_resolved_path :
  ns_info_pid Sample.target = 1234 /\
  check_ops Sample.machine (namespaces Sample.target) = false /\
  assemble_for Sample.machine (CmdStr "ls") (Some Sample.target)
               None None None
  = Ok ["/usr/bin/sudo"; "-n"; "nsenter"; "-t"; "1234"; "--all"; "--"; "ls"]
  /\
  assemble_for Sample.machine (CmdStr "ls") (Some Sample.target)
               None None None
  <> Ok ["sudo"; "-n"; "nsenter"; "-t"; "1234"; "--all"; "--"; "ls"].
Proof.
  repeat split; try reflexivity. discriminate.
Qed.

(** Through the public wrappers the working directory is always passed on,
    so the namespace-entry tokens carry a [--wd] option there. *)
Lemma scenario_ls_with_working_dir os ns path c cwd :
  check_ops os (namespaces ns) = false ->
  which os "sudo" = Some path ->
  getcwd os = String c cwd ->
  assemble_for os (CmdStr "ls") (Some ns) None (Some (getcwd os)) None
  = Ok [path; "-n"; "nsenter"; "-t"; str (ns_info_pid ns); "--all";
        "--wd=" +:+ getcwd os; "--"; "ls"].
Proof.
  intros Hops Hwhich Hcwd.
  unfold assemble_for, handle_ns, assemble, escalation. cbn.
  rewrite Hops, Hcwd. cbn. rewrite Hwhich. reflexivity.
Qed.

(** ** Validation and dry-run *)

(** C3: with [detach] and [capture_output] both set, [_exec_cmd] raises the
    [ValueError] at once, whatever the other arguments and the surroundings
    are: nothing is tokenized or resolved, and the trace is left as it was,
    so nothing is printed and no process is started. *)
Theorem detach_with_capture_rejected os cmd check dry_run verbose env ns_pid
    working_dir escalate as_user passthrough t :
  _exec_cmd os cmd true true check dry_run verbose env ns_pid working_dir
            escalate as_user passthrough t
  = (Raise (ValueError "Cannot use detach=True with capture_output=True."), t).
Proof. reflexivity. Qed.

(** C8: for a valid call ([detach] and [capture_output] not both set, and the
    argument list assembles) with [dry_run] set, [_exec_cmd] returns [None],
    its only effect is one printed line, [DRY-RUN:] followed by the
    assembled arguments joined by single spaces, and no process is
    started. *)
Theorem dry_run_prints_and_skips os cmd detach capture_output check verbose
    env ns_pid working_dir escalate as_user passthrough argv t :
  detach && capture_output = false ->
  assemble os cmd ns_pid working_dir escalate as_user = Ok argv ->
  exists t',
    _exec_cmd os cmd detach capture_output check true verbose env ns_pid
              working_dir escalate as_user passthrough t = (Ok NoProcess, t') /\
    t' = t ++ [Print ("DRY-RUN: " +:+ String.concat " " argv)] /\
    spawned t' = spawned t.
Proof.
  intros Hvalid Hasm. eexists. split; [|split; [reflexivity|]].
  - rewrite exec_cmd_stages, Hvalid, Hasm. reflexivity.
  - unfold spawned. rewrite List.filter_app. cbn. apply app_nil_r.
Qed.

Lemma dry_run_prints_and_skips_witness :
  exists t',
    _exec_cmd Sample.machine (CmdStr "ls -l") true false false true false None
              (Some 1234) None (Some sudo) None false [] = (Ok NoProcess, t') /\
    t' = [] ++ [Print ("DRY-RUN: " +:+
                       String.concat " " ["/usr/bin/sudo"; "-n"; "nsenter";
                                          "-t"; "1234"; "--all"; "--"; "ls";
                                          "-l"])] /\
    spawned t' = spawned [].
Proof.
  apply (dry_run_prints_and_skips Sample.machine (CmdStr "ls -l") true false
           false false None (Some 1234) None (Some sudo) None false);
    reflexivity.
Defined.

(** ** Escalation *)




(** ** The public wrappers *)

(** C10: an exit code returned by [run_check_code] or by [run_code_output]
    is 0; a child that exits with another code makes them raise
    [CalledProcessError] instead. *)
Theorem checked_wrappers_return_zero os cmd dry_run verbose env escalate ns
    as_user t code out t' :
  run_check_code os cmd dry_run verbose env escalate ns as_user t
  = (Ok code, t') \/
  run_code_output os cmd dry_run verbose env escalate ns as_user t
  = (Ok (code, out), t') ->
  code = 0.
Proof.
  unfold run_check_code, run_code_output.
  destruct (handle_ns os ns escalate) as [ns_pid escalate'].
  unfold_monad.
  intros [Hrun|Hrun].
  - destruct (_exec_cmd os cmd false false true dry_run verbose env ns_pid
                (Some (getcwd os)) escalate' as_user false t)
      as [[[completed| |]|] t1] eqn:Hexec; try discriminate.
    injection Hrun as <- _.
    eapply exec_cmd_checked_code, Hexec.
  - destruct (_exec_cmd os cmd false true true dry_run verbose env ns_pid
                (Some (getcwd os)) escalate' as_user false t)
      as [[[completed| |]|] t1] eqn:Hexec; try discriminate.
    injection Hrun as <- _ _.
    eapply exec_cmd_checked_code, Hexec.
Qed.

Lemma checked_wrappers_return_zero_witness :
  run_check_code Sample.machine (CmdStr "true") false false None None None
                 None [] = (Ok 0, [SpawnRun ["true"] false None true]) /\
  0 = 0.
Proof.
  split; [reflexivity|].
  apply (checked_wrappers_return_zero Sample.machine (CmdStr "true") false
           false None None None None [] 0 None
           [SpawnRun ["true"] false None true]).
  left. reflexivity.
Defined.

(** A child that exits with a non-zero code is reported by an exception. *)
Lemma checked_wrappers_raise_on_failure :
  run_check_code Sample.machine (CmdStr "ls -l") false false None None None
                 None []
  = (Raise (CalledProcessError 1 ["ls"; "-l"] None None),
     [SpawnRun ["ls"; "-l"] false None true]).
Proof. reflexivity. Qed.

(** C4 at a dry-run call: each of the five wrappers hands [dry_run] to
    [_exec_cmd], receives [None], and raises the internal-consistency
    [RuntimeError] after the dry-run line has been printed. *)
Theorem dry_run_reaches_unexpected_outcome os verbose env t :
  let t' := t ++ [Print "DRY-RUN: ls"] in
  let not_completed :=
    RuntimeError "Expected CompletedProcess, got <class 'NoneType'>" in
  run_check_output os (CmdList ["ls"]) true verbose env None None None t
  = (Raise not_completed, t') /\
  run_code_output os (CmdList ["ls"]) true verbose env None None None t
  = (Raise not_completed, t') /\
  run_check_code os (CmdList ["ls"]) true verbose env None None None t
  = (Raise not_completed, t') /\
  run_code_passthrough os (CmdList ["ls"]) true verbose env None None None t
  = (Raise not_completed, t') /\
  detach os (CmdList ["ls"]) true verbose env None None None t
  = (Raise (RuntimeError "Expected Popen, got <class 'NoneType'>"), t').
Proof. repeat split. Qed.

(** Outside dry-run the wrappers never see an outcome of the wrong kind:
    what [_exec_cmd] hands them is a [CompletedProcess] in the foreground
    and a [Popen] when detached. *)
Lemma outcome_kind_outside_dry_run os cmd detach capture_output check verbose
    env ns_pid working_dir escalate as_user passthrough t r t' :
  _exec_cmd os cmd detach capture_output check false verbose env ns_pid
            working_dir escalate as_user passthrough t = (Ok r, t') ->
  if detach then exists process, r = Detached process
  else exists completed, r = Completed completed.
Proof. intros Hexec. apply exec_cmd_outcome_kind in Hexec. exact Hexec. Qed.

(** ** Detaching with a health check *)

(** C5: once [detach] has started the process (no dry-run), a process that
    ends within [wait_time] makes [detach_and_check] raise the
    [RuntimeError] that carries its exit code, whatever that code is, and a
    process still running when the wait times out is returned. *)
Theorem detach_and_check_grace os cmd verbose env escalate ns as_user
    wait_time t process t' :
  detach os cmd false verbose env escalate ns as_user t = (Ok process, t') ->
  (forall code,
      os_wait os (popen_pid process) wait_time = Some code ->
      detach_and_check os cmd false verbose env escalate ns as_user wait_time t
      = (Raise (RuntimeError
                  ("Detached process exited immediately, indicating failure. returncode was: "
                   +:+ str code)), t')) /\
  (os_wait os (popen_pid process) wait_time = None ->
   detach_and_check os cmd false verbose env escalate ns as_user wait_time t
   = (Ok process, t')).
Proof.
  intros Hdetach. unfold detach_and_check, Popen_wait. unfold_monad.
  rewrite Hdetach.
  split; [intros code Hwait|intros Hwait]; rewrite Hwait; reflexivity.
Qed.

Lemma detach_and_check_grace_witness :
  let argv := ["sleep"; "60"] in
  let process := {| popen_args := argv; popen_pid := 4242 |} in
  let t' := [SpawnPopen argv DEVNULL DEVNULL DEVNULL None true] in
  detach_and_check Sample.machine (CmdList argv) false false None None None
                   None 1%Q []
  = (Raise (RuntimeError
              "Detached process exited immediately, indicating failure. returncode was: 0"),
     t') /\
  detach_and_check Sample.bare_path (CmdList argv) false false None None None
                   None 1%Q []
  = (Ok process, t').
Proof.
  pose (argv := ["sleep"; "60"]).
  pose (process := {| popen_args := argv; popen_pid := 4242 |}).
  pose (t' := [SpawnPopen argv DEVNULL DEVNULL DEVNULL None true]).
  split.
  - exact (proj1 (detach_and_check_grace Sample.machine (CmdList argv) false
                    None None None None 1%Q [] process t' eq_refl)
                 0 eq_refl).
  - exact (proj2 (detach_and_check_grace Sample.bare_path (CmdList argv) false
                    None None None None 1%Q [] process t' eq_refl)
                 eq_refl).
Defined.

(** ** Liveness probe *)

(** When [/proc/<pid>] exists, the probe answers with a boolean: the
    running state of the process, or [False] when [psutil] finds no such
    process. *)
Lemma process_exists_with_entry os n :
  path_exists os ("/proc/" +:+ str n) = true ->
  (inspectable os n ->
   process_exists os n = Ok (PyBool (is_running os {| pid := n |}))) /\
  (psutil_Process os n = Raise (NoSuchProcess n) ->
   process_exists os n = Ok (PyBool false)).
Proof.
  intros Hpath. unfold process_exists, inspectable. rewrite Hpath.
  split; intros ->; reflexivity.
Qed.

(** C7 at a pid without [/proc] entry: the probe falls through its only
    [if] and returns [None], which is not the boolean [False]. *)
Theorem process_exists_without_entry os n :
  path_exists os ("/proc/" +:+ str n) = false ->
  process_exists os n = Ok PyNone /\
  process_exists os n <> Ok (PyBool false).
Proof.
  intros Hpath. unfold process_exists. rewrite Hpath.
  split; [reflexivity|discriminate].
Qed.

(** Read as a truth value, an answer of the probe is true exactly for a pid
    with a [/proc] entry that [psutil] finds and reports as running. *)
Lemma process_exists_truth os n v :
  process_exists os n = Ok v ->
  truth v = true <->
  path_exists os ("/proc/" +:+ str n) = true /\
  inspectable os n /\ is_running os {| pid := n |} = true.
Proof.
  unfold process_exists, inspectable.
  destruct (path_exists os ("/proc/" +:+ str n)).
  - destruct (psutil_Process os n) as [[m]|[]] eqn:Hfound;
      intros [= <-]; cbn.
    + unfold psutil_Process in Hfound.
      destruct (proc_table os !! n) as [entry|]; [|discriminate].
      destruct (accessible entry); [|discriminate].
      injection Hfound as <-. tauto.
    + split; [discriminate|]. intros (_ & Hfalse & _). discriminate.
  - intros [= <-]. cbn. split; [discriminate|]. intros [Hfalse _].
    discriminate.
Qed.

(** A process that [psutil] refuses to inspect makes the probe raise. *)
Lemma process_exists_access_denied os n :
  path_exists os ("/proc/" +:+ str n) = true ->
  psutil_Process os n = Raise (AccessDenied n) ->
  process_exists os n = Raise (AccessDenied n).
Proof.
  intros Hpath Hdenied. unfold process_exists.
  rewrite Hpath, Hdenied. reflexivity.
Qed.

Lemma process_exists_without_entry_witness :
  process_exists Sample.machine 999 = Ok PyNone /\
  process_exists Sample.machine 999 <> Ok (PyBool false).
Proof.
  apply (process_exists_without_entry Sample.machine 999). reflexivity.
Defined.

(** ** Process-tree walker *)

Section walker.

Variable os : OS.

(** The loop over the children, once every recursive call has returned. *)
Lemma extend_with_parts (walk : Z -> result (list Process)) kids parts :
  Forall2 (fun child part => walk (pid child) = Ok part) kids parts ->
  forall acc,
    foldl (fun bottom child =>
             bottom ← bottom ;
             below ← walk (pid child) ;
             Ok (bottom ++ below))
          (Ok acc) kids
    = Ok (acc ++ concat parts).
Proof.
  induction 1 as [|child part kids parts Hchild _ IH]; intros acc; cbn.
  - rewrite app_nil_r. reflexivity.
  - rewrite Hchild. cbn. rewrite IH, <- app_assoc. reflexivity.
Qed.

Lemma elem_of_concat {A : Type} (x : A) (ls : list (list A)) :
  x ∈ concat ls <-> exists l, x ∈ l /\ l ∈ ls.
Proof.
  rewrite list_elem_of_In, in_concat. split.
  - intros (l & Hl & Hx). exists l. rewrite !list_elem_of_In. auto.
  - intros (l & Hx & Hl). exists l. rewrite <- !list_elem_of_In. auto.
Qed.

Lemma walk_uninspectable root d :
  psutil_Process os root = Raise (NoSuchProcess root) \/
  psutil_Process os root = Raise (AccessDenied root) ->
  find_bottom_children os (S d) root = Ok [].
Proof. intros [Hroot|Hroot]; cbn; rewrite Hroot; reflexivity. Qed.

Lemma psutil_Process_cases root :
  inspectable os root \/
  psutil_Process os root = Raise (NoSuchProcess root) \/
  psutil_Process os root = Raise (AccessDenied root).
Proof.
  unfold inspectable, psutil_Process.
  destruct (proc_table os !! root) as [entry|]; [|auto].
  destruct (accessible entry); auto.
Qed.

Lemma walk_leaf root d :
  leaf os root -> find_bottom_children os (S d) root = Ok [{| pid := root |}].
Proof. intros [Hins Hkids]. cbn. rewrite Hins, Hkids. reflexivity. Qed.

Lemma walk_inner root d kid kids parts :
  inspectable os root ->
  children os {| pid := root |} = kid :: kids ->
  Forall2 (fun child part => find_bottom_children os d (pid child) = Ok part)
          (kid :: kids) parts ->
  find_bottom_children os (S d) root = Ok (concat parts).
Proof.
  intros Hins Hkids Hparts. cbn [find_bottom_children].
  rewrite Hins, Hkids.
  apply (extend_with_parts (find_bottom_children os d) _ _ Hparts []).
Qed.

Lemma walked_deeper n depth depth' bottom :
  walked os n depth bottom -> (depth <= depth')%nat -> walked os n depth' bottom.
Proof.
  intros [Hwalk Hleaves] Hle. split; [|exact Hleaves].
  intros d Hd. apply Hwalk. lia.
Qed.

Lemma walked_children (kids : list Process) :
  (forall child, child ∈ kids -> exists depth part, walked os (pid child) depth part) ->
  exists depth parts,
    Forall2 (fun child part => walked os (pid child) depth part) kids parts.
Proof.
  induction kids as [|kid kids IH]; intros Hkids.
  - exists 0%nat, []. constructor.
  - destruct (Hkids kid) as (d1 & part & Hpart); [left|].
    destruct IH as (d2 & parts & Hparts).
    { intros child Hchild. apply Hkids. right. exact Hchild. }
    exists (Nat.max d1 d2), (part :: parts). constructor.
    + eapply walked_deeper; [exact Hpart|lia].
    + eapply Forall2_impl; [exact Hparts|].
      intros child part' Hw. eapply walked_deeper; [exact Hw|lia].
Qed.

Lemma leaf_descendant_step root q :
  leaf_descendant os root q <->
  (root = q /\ leaf os root) \/
  (exists c, child_of os c root /\ leaf_descendant os c q).
Proof.
  unfold leaf_descendant. split.
  - intros [Hpath Hleaf]. destruct Hpath as [|root c q Hstep Hpath].
    + left. auto.
    + right. exists c. auto.
  - intros [[<- Hleaf]|(c & Hstep & Hpath & Hleaf)].
    + split; [constructor|exact Hleaf].
    + split; [|exact Hleaf]. eapply rtc_l; [exact Hstep|exact Hpath].
Qed.

Lemma walk_subtree root :
  Acc (child_of os) root -> exists depth bottom, walked os root depth bottom.
Proof.
  induction 1 as [root _ IH].
  destruct (psutil_Process_cases root) as [Hins|Hfail].
  - destruct (children os {| pid := root |}) as [|kid kids] eqn:Hkids.
    + exists 1%nat, [{| pid := root |}]. split.
      * intros [|d] Hd; [lia|]. apply walk_leaf. split; assumption.
      * intros q. rewrite leaf_descendant_step. cbn. rewrite list_elem_of_singleton.
        split.
        -- intros ->. left. split; [reflexivity|split; assumption].
        -- intros [[<- _]|(c & [_ Hc] & _)]; [reflexivity|].
           rewrite Hkids in Hc. inversion Hc.
    + destruct (walked_children (kid :: kids)) as (depth & parts & Hparts).
      { intros [c] Hc. apply IH. split; [exact Hins|]. rewrite Hkids. exact Hc. }
      exists (S depth), (concat parts). split.
      * intros [|d] Hd; [lia|].
        apply (walk_inner root d kid kids parts Hins Hkids).
        eapply Forall2_impl; [exact Hparts|].
        intros child part [Hwalk _]. apply Hwalk. lia.
      * intros q. rewrite leaf_descendant_step, list_elem_of_fmap. split.
        -- intros (p & -> & Hp). apply elem_of_concat in Hp as (part & Hp & Hpart).
           right.
           destruct (proj1 (list_elem_of_lookup parts part) Hpart) as [i Hi].
           destruct (Forall2_lookup_r _ _ _ _ _ Hparts Hi)
             as ([c] & Hc & _ & Hleaves).
           exists c. split.
           ++ split; [exact Hins|]. rewrite Hkids.
              eapply list_elem_of_lookup_2, Hc.
           ++ apply Hleaves. apply list_elem_of_fmap. eauto.
        -- intros [[<- [_ Hnone]]|(c & [_ Hc] & Hq)]; [congruence|].
           rewrite Hkids in Hc.
           destruct (proj1 (list_elem_of_lookup _ _) Hc) as [i Hi].
           destruct (Forall2_lookup_l _ _ _ _ _ Hparts Hi)
             as (part & Hpart & _ & Hleaves).
           apply Hleaves, list_elem_of_fmap in Hq as (p & -> & Hp).
           exists p. split; [reflexivity|].
           apply elem_of_concat. exists part. split; [exact Hp|].
           eapply list_elem_of_lookup_2, Hpart.
  - exists 1%nat, []. split.
    + intros [|d] Hd; [lia|]. apply walk_uninspectable, Hfail.
    + assert (Hnot : ~ inspectable os root).
      { unfold inspectable. destruct Hfail as [Hfail|Hfail]; rewrite Hfail; discriminate. }
      intros q. rewrite leaf_descendant_step. split.
      * intros Hq. inversion Hq.
      * intros [[_ [Hins _]]|(c & [Hins _] & _)]; contradiction.
Qed.

End walker.




(** * Further properties of the module *)

(** ** Tokenizing and joining *)

Lemma append_add (token : string) (c : ascii) (s : string) :
  shlex.add token c +:+ s = token +:+ String c s.
Proof.
  unfold shlex.add. induction token as [|a token IH]; [reflexivity|].
  change (String a ((token +:+ String c EmptyString) +:+ s)
          = String a (token +:+ String c s)).
  f_equal. exact IH.
Qed.

Lemma append_empty (token : string) : token +:+ EmptyString = token.
Proof.
  induction token as [|a token IH]; [reflexivity|].
  change (String a (token +:+ EmptyString) = String a token).
  f_equal. exact IH.
Qed.

Lemma nonempty_append_cons (token : string) (c : ascii) (s : string) :
  shlex.nonempty (token +:+ String c s) = true.
Proof. destruct token; reflexivity. Qed.

Lemma plain_cases c :
  plain c = true ->
  shlex.whitespace c = false /\ shlex.quotes c = false /\
  shlex.escape c = false.
Proof.
  unfold plain.
  destruct (shlex.whitespace c), (shlex.quotes c), (shlex.escape c);
    cbn; intros; auto; discriminate.
Qed.

(** Inside a word, plain characters are collected up to the end of input. *)
Lemma read_word_to_end (s token : string) (quoted : bool) :
  all_plain s = true ->
  shlex.read shlex.Word token quoted s
  = Ok (if shlex.nonempty (token +:+ s) || quoted then [token +:+ s] else []).
Proof.
  revert token. induction s as [|c s IH]; intros token Hplain.
  - cbn. rewrite append_empty. reflexivity.
  - cbn [all_plain] in Hplain. apply andb_prop in Hplain as [Hc Hs].
    cbn [shlex.read].
    destruct (plain_cases c Hc) as (-> & -> & ->).
    rewrite (IH _ Hs), append_add. reflexivity.
Qed.

(** Inside a word, plain characters are collected up to the next space. *)
Lemma read_word_to_space (s token rest : string) (quoted : bool) :
  all_plain s = true ->
  shlex.read shlex.Word token quoted (s +:+ String " " rest)
  = if shlex.nonempty (token +:+ s) || quoted
    then cons (token +:+ s) <$> shlex.read shlex.Space EmptyString false rest
    else shlex.read shlex.Space (token +:+ s) quoted rest.
Proof.
  revert token. induction s as [|c s IH]; intros token Hplain.
  - cbn. rewrite append_empty. reflexivity.
  - cbn [all_plain] in Hplain. apply andb_prop in Hplain as [Hc Hs].
    change (String c s +:+ String " " rest)
      with (String c (s +:+ String " " rest)).
    cbn [shlex.read].
    destruct (plain_cases c Hc) as (-> & -> & ->).
    rewrite (IH _ Hs), append_add. reflexivity.
Qed.

Lemma read_joined_plain (words : list string) :
  Forall (fun w => plain_word w = true) words ->
  shlex.split (join words) = Ok words.
Proof.
  unfold join, shlex.split.
  induction 1 as [|w words Hw Hwords IH]; [reflexivity|].
  unfold plain_word in Hw. apply andb_prop in Hw as [Hne Hplain].
  destruct w as [|c w]; [discriminate|].
  cbn [all_plain] in Hplain. apply andb_prop in Hplain as [Hc Hplain].
  destruct (plain_cases c Hc) as (Hws & Hq & Hesc).
  destruct words as [|w' words].
  - cbn [String.concat shlex.read].
    rewrite Hws, Hq, Hesc, (read_word_to_end _ _ _ Hplain). reflexivity.
  - change (String.concat " " (String c w :: w' :: words))
      with (String c (w +:+ String " " (String.concat " " (w' :: words)))).
    cbn [shlex.read]. rewrite Hws, Hq, Hesc.
    rewrite (read_word_to_space _ _ _ _ Hplain). cbn [shlex.nonempty orb].
    rewrite IH. reflexivity.
Qed.

(** X1: joining plain words (non-empty, free of blanks, quotes and
    backslashes) with single spaces and splitting the line again gives the
    words back. *)
Theorem split_join_plain (words : list string) :
  Forall (fun w => plain_word w = true) words ->
  shlex.split (join words) = Ok words.
Proof. apply read_joined_plain. Qed.

Lemma split_join_plain_witness :
  shlex.split (join ["nsenter"; "-t"; "1234"; "--all"; "--wd=/srv"; "--";
                     "ls"; "-l"])
  = Ok ["nsenter"; "-t"; "1234"; "--all"; "--wd=/srv"; "--"; "ls"; "-l"].
Proof.
  apply (split_join_plain
           ["nsenter"; "-t"; "1234"; "--all"; "--wd=/srv"; "--"; "ls"; "-l"]).
  repeat constructor.
Defined.

(** X2: a command given as one string of plain words separated by single
    spaces is executed exactly like the same words given as a list. *)
Theorem exec_cmd_string_or_list os (words : list string) detach capture_output
    check dry_run verbose env ns_pid working_dir escalate as_user passthrough
    t :
  Forall (fun w => plain_word w = true) words ->
  _exec_cmd os (CmdStr (join words)) detach capture_output check dry_run
            verbose env ns_pid working_dir escalate as_user passthrough t
  = _exec_cmd os (CmdList words) detach capture_output check dry_run verbose
              env ns_pid working_dir escalate as_user passthrough t.
Proof.
  intros Hwords. rewrite !exec_cmd_stages. unfold assemble.
  cbn [tokenize]. rewrite (read_joined_plain words Hwords). reflexivity.
Qed.

Lemma exec_cmd_string_or_list_witness :
  _exec_cmd Sample.machine (CmdStr (join ["ls"; "-l"; "/tmp"])) false true
            true false true None (Some 1234) None (Some sudo) None false []
  = _exec_cmd Sample.machine (CmdList ["ls"; "-l"; "/tmp"]) false true true
              false true None (Some 1234) None (Some sudo) None false [].
Proof.
  apply (exec_cmd_string_or_list Sample.machine ["ls"; "-l"; "/tmp"]).
  repeat constructor.
Defined.

Lemma read_unquoted (s : string) :
  unquoted s = true ->
  forall st token,
    st = shlex.Space \/ st = shlex.Word ->
    exists words,
      shlex.read st token false s = Ok words /\
      Forall (fun w => shlex.nonempty w = true) words.
Proof.
  induction s as [|c s IH]; intros Hs st token Hst.
  - exists (if shlex.nonempty token || false then [token] else []).
    split; [destruct Hst as [-> | ->]; reflexivity|].
    destruct (shlex.nonempty token) eqn:Hne; cbn; repeat constructor.
    exact Hne.
  - cbn [unquoted] in Hs.
    apply andb_prop in Hs as [Hc Hs]. apply andb_prop in Hc as [Hq Hesc].
    apply negb_true_iff in Hq, Hesc.
    assert (Hemit : forall tk,
               exists words,
                 (if shlex.nonempty tk || false
                  then cons tk <$> shlex.read shlex.Space EmptyString false s
                  else shlex.read shlex.Space tk false s) = Ok words /\
                 Forall (fun w => shlex.nonempty w = true) words).
    { intros tk. destruct (shlex.nonempty tk) eqn:Hne; cbn [orb].
      - destruct (IH Hs shlex.Space EmptyString) as (words & -> & Hwords);
          [auto|].
        exists (tk :: words). split; [reflexivity|]. constructor; assumption.
      - apply IH; auto. }
    destruct Hst as [-> | ->]; cbn [shlex.read]; rewrite Hq, Hesc;
      destruct (shlex.whitespace c); try apply Hemit; apply IH; auto.
Qed.

(** X3: a command string without quotes and backslashes always tokenizes,
    and none of its words is empty; [shlex.split] can only fail on a string
    that holds a quote or a backslash. *)
Theorem split_unquoted (s : string) :
  unquoted s = true ->
  exists words,
    tokenize (CmdStr s) = Ok words /\
    Forall (fun w => shlex.nonempty w = true) words.
Proof.
  intros Hs. apply (read_unquoted s Hs shlex.Space EmptyString). auto.
Qed.

Lemma split_unquoted_witness :
  exists words,
    tokenize (CmdStr "  ip  netns exec blue   ip a ") = Ok words /\
    Forall (fun w => shlex.nonempty w = true) words.
Proof.
  apply (split_unquoted "  ip  netns exec blue   ip a "). reflexivity.
Defined.

(** ** Escalation decision and namespace entry *)

(** X4: [handle_ns] returns the target's pid exactly when a target is
    given, and asks for a helper exactly when the caller named one, or
    named none while a target is given whose operations [check_ops]
    refuses; the helper it picks by itself is always [sudo]. *)
Theorem handle_ns_decision os ns escalate h :
  fst (handle_ns os ns escalate) = ns_info_pid <$> ns /\
  (snd (handle_ns os ns escalate) = Some h <->
   escalate = Some h \/
   (escalate = None /\ h = sudo /\
    exists target, ns = Some target /\
                   check_ops os (namespaces target) = false)).
Proof.
  unfold handle_ns. destruct ns as [target|]; cbn.
  - split; [reflexivity|]. destruct escalate as [e|]; cbn.
    + split; [auto|]. intros [H|[H _]]; [exact H|discriminate].
    + destruct (check_ops os (namespaces target)) eqn:Hops; cbn.
      * split; [discriminate|].
        intros [H|(_ & _ & target' & [= <-] & Hops')];
          [discriminate|congruence].
      * split.
        -- intros [= <-]. right. eauto.
        -- intros [H|(_ & -> & _)]; [discriminate|reflexivity].
  - split; [reflexivity|]. split; [auto|].
    intros [H|(-> & _ & target & Hns & _)]; [exact H|discriminate].
Qed.

(** X5: without a namespace target the working directory and the user are
    not looked at: [_exec_cmd], and with it [run], behave as if neither had
    been given; in particular an unknown user goes unnoticed. *)
Theorem no_namespace_ignores_user os cmd detach capture_output check dry_run
    verbose env working_dir escalate as_user passthrough t :
  _exec_cmd os cmd detach capture_output check dry_run verbose env None
            working_dir escalate as_user passthrough t
  = _exec_cmd os cmd detach capture_output check dry_run verbose env None
              None escalate None passthrough t /\
  run os cmd dry_run verbose env escalate None as_user t
  = run os cmd dry_run verbose env escalate None None t.
Proof.
  assert (Hasm : forall wd user,
             assemble os cmd None wd escalate user
             = assemble os cmd None None escalate None) by reflexivity.
  split.
  - rewrite !exec_cmd_stages, Hasm. reflexivity.
  - unfold run. cbn [handle_ns]. unfold_monad.
    rewrite !exec_cmd_stages, (Hasm _ as_user). reflexivity.
Qed.

(** X6: with a namespace target and a user that [get_uid] or [get_gid]
    cannot resolve, a call whose flags are valid and whose command tokenizes
    fails with the resolver's error before anything is printed or started,
    whatever the escalation mode and whether or not its helper exists. *)
Theorem unknown_user_stops_execution os cmd detach capture_output check
    dry_run verbose env p working_dir escalate c user passthrough t words e :
  detach && capture_output = false ->
  tokenize cmd = Ok words ->
  get_uid os (String c user) = Raise e \/
  (exists uid, get_uid os (String c user) = Ok uid /\
               get_gid os (String c user) = Raise e) ->
  _exec_cmd os cmd detach capture_output check dry_run verbose env (Some p)
            working_dir escalate (Some (String c user)) passthrough t
  = (Raise e, t).
Proof.
  intros Hvalid Hwords Huser.
  rewrite exec_cmd_stages, Hvalid. unfold assemble. rewrite Hwords.
  unfold nsenter. unfold_monad. cbn [truthy].
  destruct Huser as [Huid|(uid & Huid & Hgid)].
  - rewrite Huid. reflexivity.
  - rewrite Huid, Hgid. reflexivity.
Qed.

Lemma unknown_user_stops_execution_witness :
  _exec_cmd Sample.machine (CmdStr "id") false true true true true None
            (Some 1234) (Some "/srv") (Some pkexec) (Some "bob") false []
  = (Raise (KeyError "bob"), []) /\
  _exec_cmd Lab.machine (CmdStr "id") true false false false false None
            (Some 1234) None None (Some "alice") true []
  = (Raise (KeyError "no group"), []).
Proof.
  split.
  - apply (unknown_user_stops_execution Sample.machine (CmdStr "id") false
             true true true true None 1234 (Some "/srv") (Some pkexec)
             "b"%char "ob" false [] ["id"]);
      [reflexivity|reflexivity|left; reflexivity].
  - apply (unknown_user_stops_execution Lab.machine (CmdStr "id") true false
             false false false None 1234 None None "a"%char "lice" true []
             ["id"]);
      [reflexivity|reflexivity|right; exists 1000; split; reflexivity].
Defined.

(** ** The wrappers in the foreground *)

Lemma exec_cmd_foreground os cmd capture_output check verbose env ns_pid
    working_dir escalate as_user passthrough t argv child :
  assemble os cmd ns_pid working_dir escalate as_user = Ok argv ->
  os_run os argv env = Ok child ->
  _exec_cmd os cmd false capture_output check false verbose env ns_pid
            working_dir escalate as_user passthrough t
  = let out := if capture_output then Some (child_stdout child) else None in
    let err := if capture_output then Some (child_stderr child) else None in
    (if check && negb (exit_code child =? 0)
     then Raise (CalledProcessError (exit_code child) argv out err)
     else Ok (Completed {| cp_args := argv; returncode := exit_code child;
                           stdout := out; stderr := err |}),
     (if verbose then t ++ [Print ("RUN: " +:+ join argv)] else t)
     ++ [SpawnRun argv capture_output env check]).
Proof.
  intros Hasm Hrun. rewrite exec_cmd_stages, Hasm. cbn. rewrite Hrun.
  destruct (check && negb (exit_code child =? 0)); reflexivity.
Qed.

(** X7: once the command is assembled and its child has run, [run] returns
    normally whatever the exit code, while [run_check] returns normally on
    exit code 0 and raises [CalledProcessError] with the code otherwise;
    both start exactly one child, with the assembled arguments and the
    caller's environment, after the [RUN:] line when verbose. *)
Theorem run_and_run_check os cmd (verbose : bool) env escalate ns as_user t
    argv child :
  assemble_for os cmd ns escalate (Some (getcwd os)) as_user = Ok argv ->
  os_run os argv env = Ok child ->
  let shown : trace :=
    if verbose then t ++ [Print ("RUN: " +:+ join argv)] else t in
  run os cmd false verbose env escalate ns as_user t
  = (Ok tt, shown ++ [SpawnRun argv false env false]) /\
  run_check os cmd false verbose env escalate ns as_user t
  = (if exit_code child =? 0 then Ok tt
     else Raise (CalledProcessError (exit_code child) argv None None),
     shown ++ [SpawnRun argv false env true]).
Proof.
  unfold assemble_for, run, run_check.
  destruct (handle_ns os ns escalate) as [ns_pid escalate'].
  intros Hasm Hrun. unfold_monad.
  rewrite !(exec_cmd_foreground _ _ _ _ _ _ _ _ _ _ _ _ _ _ Hasm Hrun).
  cbn. destruct (exit_code child =? 0); split; reflexivity.
Qed.

Lemma run_and_run_check_witness :
  let argv := ["/usr/bin/sudo"; "-n"; "nsenter"; "-t"; "1234"; "--all";
               "--wd=/srv"; "--"; "ls"; "-l"] in
  run Sample.machine (CmdStr "ls -l") false false None None
      (Some Sample.target) None []
  = (Ok tt, [SpawnRun argv false None false]) /\
  run_check Sample.machine (CmdStr "ls -l") false false None None
            (Some Sample.target) None []
  = (Raise (CalledProcessError 9 argv None None),
     [SpawnRun argv false None true]).
Proof.
  apply (run_and_run_check Sample.machine (CmdStr "ls -l") false None None
           (Some Sample.target) None []
           ["/usr/bin/sudo"; "-n"; "nsenter"; "-t"; "1234"; "--all";
            "--wd=/srv"; "--"; "ls"; "-l"]
           {| exit_code := 9; child_stdout := "out"; child_stderr := "" |});
    reflexivity.
Defined.

(** X8: [run_code_passthrough] hands back the child's exit code as it is,
    zero or not, and never raises [CalledProcessError]. *)
Theorem run_code_passthrough_code os cmd verbose env escalate ns as_user t
    argv child :
  assemble_for os cmd ns escalate (Some (getcwd os)) as_user = Ok argv ->
  os_run os argv env = Ok child ->
  run_code_passthrough os cmd false verbose env escalate ns as_user t
  = (Ok (exit_code child),
     (if verbose then t ++ [Print ("RUN: " +:+ join argv)] else t)
     ++ [SpawnRun argv false env false]).
Proof.
  unfold assemble_for, run_code_passthrough.
  destruct (handle_ns os ns escalate) as [ns_pid escalate'].
  intros Hasm Hrun. unfold_monad.
  rewrite (exec_cmd_foreground _ _ _ _ _ _ _ _ _ _ _ _ _ _ Hasm Hrun).
  reflexivity.
Qed.

Lemma run_code_passthrough_code_witness :
  run_code_passthrough Sample.machine (CmdStr "ls -l /tmp") false false None
                       None None None []
  = (Ok 2, [] ++ [SpawnRun ["ls"; "-l"; "/tmp"] false None false]).
Proof.
  apply (run_code_passthrough_code Sample.machine (CmdStr "ls -l /tmp") false
           None None None None [] ["ls"; "-l"; "/tmp"]
           {| exit_code := 2; child_stdout := "out"; child_stderr := "" |});
    reflexivity.
Defined.

(** X9: the [passthrough] switch only matters when detaching: in the
    foreground and in a dry run [_exec_cmd] does the same with and without
    it, so setting it in [run_code_passthrough] changes nothing. *)
Theorem passthrough_only_when_detached os cmd capture_output check dry_run
    verbose env ns_pid working_dir escalate as_user t :
  (forall detach,
      detach && negb dry_run = false ->
      _exec_cmd os cmd detach capture_output check dry_run verbose env ns_pid
                working_dir escalate as_user true t
      = _exec_cmd os cmd detach capture_output check dry_run verbose env
                  ns_pid working_dir escalate as_user false t).
Proof.
  intros detach Hmode. rewrite !exec_cmd_stages.
  destruct detach, dry_run; try discriminate; reflexivity.
Qed.

Lemma passthrough_only_when_detached_witness :
  _exec_cmd Sample.machine (CmdStr "ls") false false false false true None
            None None None None true []
  = _exec_cmd Sample.machine (CmdStr "ls") false false false false true None
              None None None None false [].
Proof.
  apply (passthrough_only_when_detached Sample.machine (CmdStr "ls") false
           false false true None None None None None [] false).
  reflexivity.
Defined.

(** X10: with output captured and the exit code checked,
    [run_check_output] returns the child's standard output and
    [run_code_output] returns it together with code 0 when the child exits
    with 0; otherwise both raise [CalledProcessError] carrying the exit
    code, the arguments and both captured streams. *)
Theorem captured_output_or_error os cmd (verbose : bool) env escalate ns
    as_user t argv child :
  assemble_for os cmd ns escalate (Some (getcwd os)) as_user = Ok argv ->
  os_run os argv env = Ok child ->
  let t' : trace :=
    (if verbose then t ++ [Print ("RUN: " +:+ join argv)] else t)
    ++ [SpawnRun argv true env true] in
  let failure :=
    CalledProcessError (exit_code child) argv (Some (child_stdout child))
                       (Some (child_stderr child)) in
  run_check_output os cmd false verbose env escalate ns as_user t
  = (if exit_code child =? 0 then Ok (Some (child_stdout child))
     else Raise failure, t') /\
  run_code_output os cmd false verbose env escalate ns as_user t
  = (if exit_code child =? 0 then Ok (0, Some (child_stdout child))
     else Raise failure, t').
Proof.
  unfold assemble_for, run_check_output, run_code_output.
  destruct (handle_ns os ns escalate) as [ns_pid escalate'].
  intros Hasm Hrun. unfold_monad.
  rewrite !(exec_cmd_foreground _ _ _ _ _ _ _ _ _ _ _ _ _ _ Hasm Hrun).
  cbn. destruct (exit_code child =? 0) eqn:Hcode; cbn; [|split; reflexivity].
  apply Z.eqb_eq in Hcode. rewrite Hcode. split; reflexivity.
Qed.

Lemma captured_output_or_error_witness :
  run_check_output Sample.machine (CmdStr "hostname") false false None None
                   None None []
  = (Ok (Some "out"), [SpawnRun ["hostname"] true None true]) /\
  run_code_output Sample.machine (CmdStr "hostname") false false None None
                  None None []
  = (Ok (0, Some "out"), [SpawnRun ["hostname"] true None true]).
Proof.
  apply (captured_output_or_error Sample.machine (CmdStr "hostname") false
           None None None None [] ["hostname"]
           {| exit_code := 0; child_stdout := "out"; child_stderr := "" |});
    reflexivity.
Defined.

(** ** Detaching *)

Lemma exec_cmd_detached os cmd check verbose env ns_pid working_dir escalate
    as_user passthrough t argv :
  assemble os cmd ns_pid working_dir escalate as_user = Ok argv ->
  _exec_cmd os cmd true false check false verbose env ns_pid working_dir
            escalate as_user passthrough t
  = let io := if passthrough then INHERIT else DEVNULL in
    (match os_popen os argv env with
     | Ok child => Ok (Detached {| popen_args := argv; popen_pid := child |})
     | Raise e => Raise e
     end,
     (if verbose then t ++ [Print ("DETACH: " +:+ join argv)] else t)
     ++ [SpawnPopen argv io io io env true]).
Proof.
  intros Hasm. rewrite exec_cmd_stages, Hasm. cbn.
  destruct (os_popen os argv env); reflexivity.
Qed.

(** X11: [detach] starts the assembled command in a session of its own with
    all three standard streams on the null device and the caller's
    environment; it returns a handle with the child's pid, or passes on the
    error of the failed start. *)
Theorem detach_spawns_silenced os cmd (verbose : bool) env escalate ns as_user
    t argv :
  assemble_for os cmd ns escalate (Some (getcwd os)) as_user = Ok argv ->
  detach os cmd false verbose env escalate ns as_user t
  = (match os_popen os argv env with
     | Ok child => Ok {| popen_args := argv; popen_pid := child |}
     | Raise e => Raise e
     end,
     (if verbose then t ++ [Print ("DETACH: " +:+ join argv)] else t)
     ++ [SpawnPopen argv DEVNULL DEVNULL DEVNULL env true]).
Proof.
  unfold assemble_for, detach.
  destruct (handle_ns os ns escalate) as [ns_pid escalate'].
  intros Hasm. unfold_monad.
  rewrite (exec_cmd_detached _ _ _ _ _ _ _ _ _ _ _ _ Hasm). cbn.
  destruct (os_popen os argv env); reflexivity.
Qed.

Lemma detach_spawns_silenced_witness :
  detach Sample.machine (CmdStr "sleep 60") false true None None None None []
  = (Ok {| popen_args := ["sleep"; "60"]; popen_pid := 4242 |},
     [Print "DETACH: sleep 60";
      SpawnPopen ["sleep"; "60"] DEVNULL DEVNULL DEVNULL None true]) /\
  detach Lab.machine (CmdStr "sleep 60") false false None None None None []
  = (Raise (OSError "cannot fork"),
     [SpawnPopen ["sleep"; "60"] DEVNULL DEVNULL DEVNULL None true]).
Proof.
  split.
  - apply (detach_spawns_silenced Sample.machine (CmdStr "sleep 60") true None
             None None None [] ["sleep"; "60"]).
    reflexivity.
  - apply (detach_spawns_silenced Lab.machine (CmdStr "sleep 60") false None
             None None None [] ["sleep"; "60"]).
    reflexivity.
Defined.

(** X12: the health check of [detach_and_check] adds no effect of its own:
    its trace is that of [detach]; and a handle it returns was returned by
    [detach] and belongs to a child that was still running when the wait
    timed out. *)
Theorem detach_and_check_returns_live os cmd dry_run verbose env escalate ns
    as_user wait_time t :
  snd (detach_and_check os cmd dry_run verbose env escalate ns as_user
                        wait_time t)
  = snd (detach os cmd dry_run verbose env escalate ns as_user t) /\
  (forall process t',
      detach_and_check os cmd dry_run verbose env escalate ns as_user
                       wait_time t = (Ok process, t') ->
      detach os cmd dry_run verbose env escalate ns as_user t
      = (Ok process, t') /\
      os_wait os (popen_pid process) wait_time = None).
Proof.
  unfold detach_and_check, Popen_wait. unfold_monad.
  destruct (detach os cmd dry_run verbose env escalate ns as_user t)
    as [[process|e] t1]; [|split; [reflexivity|discriminate]].
  destruct (os_wait os (popen_pid process) wait_time) as [code|] eqn:Hwait.
  - split; [reflexivity|discriminate].
  - split; [reflexivity|]. intros process' t' [= <- <-]. auto.
Qed.

Lemma detach_and_check_returns_live_witness :
  let process := {| popen_args := ["sleep"; "60"]; popen_pid := 4242 |} in
  let t' := [SpawnPopen ["sleep"; "60"] DEVNULL DEVNULL DEVNULL None true] in
  detach Sample.bare_path (CmdStr "sleep 60") false false None None None None
         [] = (Ok process, t') /\
  os_wait Sample.bare_path (popen_pid process) 1%Q = None.
Proof.
  exact (proj2 (detach_and_check_returns_live Sample.bare_path
                  (CmdStr "sleep 60") false false None None None None 1%Q [])
               _ _ eq_refl).
Defined.

(** ** Effects of one call *)

(** X13: one call of [_exec_cmd] only adds to the trace, and what it adds
    holds at most one started process: none in a dry run, none when the
    assembly fails (then nothing is added at all), and nothing but the
    started process when neither verbose nor dry run. *)
Theorem exec_cmd_effects os cmd detach capture_output check dry_run verbose
    env ns_pid working_dir escalate as_user passthrough t :
  exists added,
    snd (_exec_cmd os cmd detach capture_output check dry_run verbose env
                   ns_pid working_dir escalate as_user passthrough t)
    = t ++ added /\
    (length (spawned added) <= 1)%nat /\
    (dry_run = true -> spawned added = []) /\
    (dry_run = false -> verbose = false -> spawned added = added) /\
    (forall e,
        assemble os cmd ns_pid working_dir escalate as_user = Raise e ->
        added = []).
Proof.
  rewrite exec_cmd_stages.
  destruct (detach && capture_output).
  { exists []. cbn. rewrite app_nil_r. repeat split; auto. }
  destruct (assemble os cmd ns_pid working_dir escalate as_user)
    as [argv|e0].
  2:{ exists []. cbn. rewrite app_nil_r. repeat split; auto. }
  destruct dry_run.
  { eexists. cbn. split; [reflexivity|]. cbn.
    repeat split; auto; discriminate. }
  destruct detach.
  - destruct verbose; cbn; destruct (os_popen os argv env); cbn;
      rewrite <- ?app_assoc; eexists; (split; [reflexivity|]); cbn;
      repeat split; auto; discriminate.
  - destruct verbose; cbn; destruct (os_run os argv env) as [child|]; cbn;
      try destruct (check && negb (exit_code child =? 0)); cbn;
      rewrite <- ?app_assoc; eexists; (split; [reflexivity|]); cbn;
      repeat split; auto; discriminate.
Qed.

(** X14: in a dry run [run] and [run_check] return normally once the
    command is assembled: they print the [DRY-RUN:] line and start
    nothing. *)
Theorem run_dry os cmd verbose env escalate ns as_user t argv :
  assemble_for os cmd ns escalate (Some (getcwd os)) as_user = Ok argv ->
  run os cmd true verbose env escalate ns as_user t
  = (Ok tt, t ++ [Print ("DRY-RUN: " +:+ join argv)]) /\
  run_check os cmd true verbose env escalate ns as_user t
  = (Ok tt, t ++ [Print ("DRY-RUN: " +:+ join argv)]).
Proof.
  unfold assemble_for, run, run_check.
  destruct (handle_ns os ns escalate) as [ns_pid escalate'].
  intros Hasm. unfold_monad. rewrite !exec_cmd_stages, Hasm.
  split; reflexivity.
Qed.

Lemma run_dry_witness :
  let line :=
    "DRY-RUN: /usr/bin/sudo -n nsenter -t 1234 --all --wd=/srv --setuid=1000 --setgid=100 -- id" in
  run Sample.machine (CmdStr "id") true true None None (Some Sample.target)
      (Some "alice") [] = (Ok tt, [Print line]) /\
  run_check Sample.machine (CmdStr "id") true true None None
            (Some Sample.target) (Some "alice") [] = (Ok tt, [Print line]).
Proof.
  apply (run_dry Sample.machine (CmdStr "id") true None None
           (Some Sample.target) (Some "alice") []
           ["/usr/bin/sudo"; "-n"; "nsenter"; "-t"; "1234"; "--all";
            "--wd=/srv"; "--setuid=1000"; "--setgid=100"; "--"; "id"]).
  reflexivity.
Defined.

(** ** Escalation decided by the module itself *)

Lemma assemble_missing_helper os cmd ns_pid working_dir e as_user :
  which os (helper_name e) = None ->
  exists err,
    assemble os cmd ns_pid working_dir (Some e) as_user = Raise err.
Proof.
  intros Hwhich. unfold assemble, escalation. unfold_monad.
  destruct (tokenize cmd) as [words|]; [|eauto].
  destruct (nsenter os ns_pid working_dir as_user words); [|eauto].
  rewrite Hwhich. eauto.
Qed.

Ltac fail_before_dispatch Hops Hwhich :=
  unfold handle_ns; rewrite Hops; cbn [negb]; unfold_monad;
  rewrite exec_cmd_stages; cbn [andb];
  match goal with
  | |- context [assemble ?os ?cmd ?p ?wd (Some sudo) ?user] =>
      destruct (assemble_missing_helper os cmd p wd sudo user Hwhich)
        as [err ->]
  end;
  eauto.

(** X15: for a namespace target whose operations [check_ops] refuses, on a
    machine without [sudo], every public entry point called without an
    explicit helper fails before anything is printed or started, a dry run
    included: the module's own choice of [sudo] is not dropped. *)
Theorem implicit_sudo_required os target cmd dry_run verbose env as_user
    wait_time t :
  check_ops os (namespaces target) = false ->
  which os "sudo" = None ->
  let ns := Some target in
  (exists err, run os cmd dry_run verbose env None ns as_user t
               = (Raise err, t)) /\
  (exists err, run_check os cmd dry_run verbose env None ns as_user t
               = (Raise err, t)) /\
  (exists err, run_check_output os cmd dry_run verbose env None ns as_user t
               = (Raise err, t)) /\
  (exists err, run_code_output os cmd dry_run verbose env None ns as_user t
               = (Raise err, t)) /\
  (exists err, run_check_code os cmd dry_run verbose env None ns as_user t
               = (Raise err, t)) /\
  (exists err, run_code_passthrough os cmd dry_run verbose env None ns
                                    as_user t = (Raise err, t)) /\
  (exists err, detach os cmd dry_run verbose env None ns as_user t
               = (Raise err, t)) /\
  (exists err, detach_and_check os cmd dry_run verbose env None ns as_user
                                wait_time t = (Raise err, t)).
Proof.
  intros Hops Hwhich ns. subst ns.
  change (which os (helper_name sudo) = None) in Hwhich.
  repeat split.
  - unfold run. fail_before_dispatch Hops Hwhich.
  - unfold run_check. fail_before_dispatch Hops Hwhich.
  - unfold run_check_output. fail_before_dispatch Hops Hwhich.
  - unfold run_code_output. fail_before_dispatch Hops Hwhich.
  - unfold run_check_code. fail_before_dispatch Hops Hwhich.
  - unfold run_code_passthrough. fail_before_dispatch Hops Hwhich.
  - unfold detach. fail_before_dispatch Hops Hwhich.
  - unfold detach_and_check, detach. fail_before_dispatch Hops Hwhich.
Qed.

Lemma implicit_sudo_required_witness :
  exists err,
    run Lab.machine (CmdStr "ip link") true false None None
        (Some Sample.target) None [] = (Raise err, []).
Proof.
  exact (proj1 (implicit_sudo_required Lab.machine Sample.target
                  (CmdStr "ip link") true false None None 1%Q []
                  eq_refl eq_refl)).
Defined.

(** ** The walker and the recursion limit *)

Section walker_limit.

Variable os : OS.

Lemma extend_raised (walk : Z -> result (list Process)) kids e :
  foldl (fun bottom child =>
           bottom ← bottom ;
           below ← walk (pid child) ;
           Ok (bottom ++ below))
        (Raise e) kids
  = Raise e.
Proof. induction kids as [|kid kids IH]; [reflexivity|exact IH]. Qed.

Lemma extend_step (walk : Z -> result (list Process)) kid kids acc :
  foldl (fun bottom child =>
           bottom ← bottom ;
           below ← walk (pid child) ;
           Ok (bottom ++ below))
        (Ok acc) (kid :: kids)
  = match walk (pid kid) with
    | Ok below =>
        foldl (fun bottom child =>
                 bottom ← bottom ;
                 below ← walk (pid child) ;
                 Ok (bottom ++ below))
              (Ok (acc ++ below)) kids
    | Raise e => Raise e
    end.
Proof.
  cbn [foldl].
  match goal with
  | |- foldl _ ?start kids = _ =>
      change start with (match walk (pid kid) with
                         | Ok below => Ok (acc ++ below)
                         | Raise e => Raise e
                         end)
  end.
  destruct (walk (pid kid)); [reflexivity|apply extend_raised].
Qed.

Lemma extend_inv (walk : Z -> result (list Process)) kids :
  forall acc r,
    foldl (fun bottom child =>
             bottom ← bottom ;
             below ← walk (pid child) ;
             Ok (bottom ++ below))
          (Ok acc) kids
    = Ok r ->
    exists parts,
      Forall2 (fun child part => walk (pid child) = Ok part) kids parts /\
      r = acc ++ concat parts.
Proof.
  induction kids as [|kid kids IH]; intros acc r.
  - intros [= <-]. exists []. split; [constructor|].
    cbn. rewrite app_nil_r. reflexivity.
  - rewrite extend_step.
    destruct (walk (pid kid)) as [below|e] eqn:Hkid; [|discriminate].
    intros Hrest. apply IH in Hrest as (parts & Hparts & ->).
    exists (below :: parts). split; [constructor; assumption|].
    cbn. rewrite app_assoc. reflexivity.
Qed.


Lemma not_inspectable_raises n :
  ~ inspectable os n ->
  psutil_Process os n = Raise (NoSuchProcess n) \/
  psutil_Process os n = Raise (AccessDenied n).
Proof.
  intros Hnot. destruct (psutil_Process_cases os n) as [Hins|Hfail];
    [contradiction|exact Hfail].
Qed.

(** The three ways in which one level of the walk ends well. *)
Lemma walk_cases d n r :
  find_bottom_children os (S d) n = Ok r ->
  (~ inspectable os n /\ r = []) \/
  (leaf os n /\ r = [{| pid := n |}]) \/
  (inspectable os n /\
   exists kid kids parts,
     children os {| pid := n |} = kid :: kids /\
     Forall2 (fun child part =>
                find_bottom_children os d (pid child) = Ok part)
             (kid :: kids) parts /\
     r = concat parts).
Proof.
  cbn [find_bottom_children].
  destruct (psutil_Process_cases os n) as [Hins|Hfail].
  - assert (Hfound := Hins). unfold inspectable in Hfound. rewrite Hfound.
    destruct (children os {| pid := n |}) as [|kid kids] eqn:Hkids.
    + intros [= <-]. right. left. split; [split; assumption|reflexivity].
    + intros Hloop. apply extend_inv in Hloop as (parts & Hparts & ->).
      right. right. split; [exact Hins|]. exists kid, kids, parts. auto.
  - assert (Hnot : ~ inspectable os n).
    { unfold inspectable.
      destruct Hfail as [Hfail|Hfail]; rewrite Hfail; discriminate. }
    destruct Hfail as [Hfail|Hfail]; rewrite Hfail; intros [= <-]; auto.
Qed.

Lemma walk_deeper d :
  forall n r d',
    find_bottom_children os d n = Ok r -> (d <= d')%nat ->
    find_bottom_children os d' n = Ok r.
Proof.
  induction d as [|d IH]; intros n r d' Hwalk Hle; [discriminate|].
  destruct d' as [|d']; [lia|].
  apply walk_cases in Hwalk
    as [[Hnot ->]|[[Hleaf ->]|(Hins & kid & kids & parts & Hkids & Hparts & ->)]].
  - apply walk_uninspectable, not_inspectable_raises, Hnot.
  - apply walk_leaf, Hleaf.
  - apply (walk_inner os n d' kid kids parts Hins Hkids).
    eapply Forall2_impl; [exact Hparts|].
    intros child part Hchild. apply (IH _ _ _ Hchild). lia.
Qed.

Lemma walk_success_acc d :
  forall n r, find_bottom_children os d n = Ok r -> Acc (child_of os) n.
Proof.
  induction d as [|d IH]; intros n r Hwalk; [discriminate|].
  apply walk_cases in Hwalk
    as [[Hnot _]|[[[_ Hnone] _]|(_ & kid & kids & parts & Hkids & Hparts & _)]];
    constructor; intros c [Hins Hc].
  - contradiction.
  - rewrite Hnone in Hc. inversion Hc.
  - rewrite Hkids in Hc.
    destruct (proj1 (list_elem_of_lookup _ _) Hc) as [i Hi].
    destruct (Forall2_lookup_l _ _ _ _ _ Hparts Hi) as (part & _ & Hpart).
    apply (IH _ _ Hpart).
Qed.


Lemma walk_result_leaves d n r :
  find_bottom_children os d n = Ok r ->
  forall q, q ∈ pid <$> r <-> leaf_descendant os n q.
Proof.
  intros Hwalk.
  destruct (walk_subtree os n (walk_success_acc d n r Hwalk))
    as (depth & bottom & Hdeep & Hleaves).
  assert (Hsame : Ok r = Ok bottom).
  { rewrite <- (walk_deeper d n r (Nat.max d depth) Hwalk ltac:(lia)).
    apply Hdeep. lia. }
  injection Hsame as ->. exact Hleaves.
Qed.

End walker_limit.

(** X16: whenever the walk ends well, at whatever recursion limit and on
    whatever process table, the pids it returns are exactly the leaf
    descendants of the root. *)
Theorem walk_returns_leaves os d root bottom :
  find_bottom_children os d root = Ok bottom ->
  forall q, q ∈ pid <$> bottom <-> leaf_descendant os root q.
Proof. apply walk_result_leaves. Qed.

Lemma walk_returns_leaves_witness :
  30 ∈ pid <$> [{| pid := 20 |}; {| pid := 30 |}]
  <-> leaf_descendant Sample.machine 1 30.
Proof.
  exact (walk_returns_leaves Sample.machine 3 1
           [{| pid := 20 |}; {| pid := 30 |}] eq_refl 30).
Defined.

(** X17: a walk that ends well gives the same list at every higher
    recursion limit. *)
Theorem walk_limit_irrelevant os d d' root bottom :
  find_bottom_children os d root = Ok bottom ->
  (d <= d')%nat ->
  find_bottom_children os d' root = Ok bottom.
Proof. intros Hwalk Hle. exact (walk_deeper os d root bottom d' Hwalk Hle). Qed.

Lemma walk_limit_irrelevant_witness :
  find_bottom_children Sample.machine 1000 1
  = Ok [{| pid := 20 |}; {| pid := 30 |}].
Proof.
  apply (walk_limit_irrelevant Sample.machine 2 1000 1);
    [reflexivity|lia].
Defined.





(** ** The walker on a forest *)

Section forest_walk.

Variable os : OS.
Hypothesis Hforest : forest os.

#[local] Instance Build_Process_inj : Inj (=) (=) Build_Process.
Proof. intros x y [= ->]. reflexivity. Qed.

Lemma children_NoDup n : NoDup (children os {| pid := n |}).
Proof.
  unfold children. cbn [pid].
  destruct (proc_table os !! n) as [entry|] eqn:Hentry; [|constructor].
  apply (NoDup_fmap_2 Build_Process). exact (proj1 Hforest n entry Hentry).
Qed.

(** The ancestors of a process form a chain. *)
Lemma ancestors_chain a :
  forall q,
    rtc (fun p c => child_of os c p) a q ->
    forall b,
      rtc (fun p c => child_of os c p) b q ->
      rtc (fun p c => child_of os c p) a b \/
      rtc (fun p c => child_of os c p) b a.
Proof.
  apply (rtc_ind_r
           (fun q => forall b,
                rtc (fun p c => child_of os c p) b q ->
                rtc (fun p c => child_of os c p) a b \/
                rtc (fun p c => child_of os c p) b a) a).
  - intros b Hb. right. exact Hb.
  - intros y z Hay Hyz IH b Hbz.
    apply rtc_inv_r in Hbz as [->|(y' & Hby' & Hy'z)].
    + left. eapply rtc_r; [exact Hay|exact Hyz].
    + rewrite (proj2 Hforest z y' y Hy'z Hyz) in Hby'. apply IH, Hby'.
Qed.

Lemma no_way_back root :
  Acc (child_of os) root ->
  forall c,
    child_of os c root -> rtc (fun p c => child_of os c p) c root -> False.
Proof.
  induction 1 as [x _ IH]. intros c Hc Hpath.
  apply rtc_inv in Hpath as [->|(c1 & Hstep & Hrest)].
  - apply (IH x Hc x Hc). constructor.
  - apply (IH c Hc c1 Hstep). eapply rtc_r; [exact Hrest|exact Hc].
Qed.

Lemma siblings_apart root c1 c2 q :
  Acc (child_of os) root ->
  child_of os c1 root -> child_of os c2 root ->
  rtc (fun p c => child_of os c p) c1 q ->
  rtc (fun p c => child_of os c p) c2 q ->
  c1 = c2.
Proof.
  intros Hwf Hc1 Hc2 Hq1 Hq2.
  destruct (ancestors_chain c1 q Hq1 c2 Hq2) as [Hdown|Hdown];
    apply rtc_inv_r in Hdown as [Heq|(y & Hpath & Hlast)]; try congruence.
  - rewrite (proj2 Hforest c2 y root Hlast Hc2) in Hpath.
    destruct (no_way_back root Hwf c1 Hc1 Hpath).
  - rewrite (proj2 Hforest c1 y root Hlast Hc1) in Hpath.
    destruct (no_way_back root Hwf c2 Hc2 Hpath).
Qed.

Lemma parts_NoDup (kids : list Process) (parts : list (list Process)) :
  Forall2 (fun child part =>
             NoDup part /\
             forall x, x ∈ part ->
                       rtc (fun p c => child_of os c p) (pid child) (pid x))
          kids parts ->
  NoDup kids ->
  (forall k1 k2 q,
      k1 ∈ kids -> k2 ∈ kids ->
      rtc (fun p c => child_of os c p) (pid k1) q ->
      rtc (fun p c => child_of os c p) (pid k2) q -> k1 = k2) ->
  NoDup (concat parts).
Proof.
  induction 1 as [|kid part kids parts [Hpart Hreach] Hrest IH];
    intros Hkids Hapart; cbn [concat]; [constructor|].
  apply NoDup_cons in Hkids as [Hfresh Hkids].
  apply NoDup_app. split; [exact Hpart|]. split.
  - intros x Hx Hx'. apply elem_of_concat in Hx' as (part' & Hxp & Hp').
    destruct (proj1 (list_elem_of_lookup _ _) Hp') as [i Hi].
    destruct (Forall2_lookup_r _ _ _ _ _ Hrest Hi)
      as (kid' & Hkid' & _ & Hreach').
    apply list_elem_of_lookup_2 in Hkid'.
    assert (Hsame : kid = kid').
    { apply (Hapart kid kid' (pid x)); [left|right; exact Hkid'| |]; auto. }
    subst kid'. contradiction.
  - apply IH; [exact Hkids|].
    intros k1 k2 q Hk1 Hk2. apply Hapart; right; assumption.
Qed.

Lemma walk_NoDup d :
  forall n r, find_bottom_children os d n = Ok r -> NoDup r.
Proof.
  induction d as [|d IH]; intros n r Hwalk; [discriminate|].
  assert (Hwf := walk_success_acc os _ _ _ Hwalk).
  apply walk_cases in Hwalk
    as [[_ ->]|[[_ ->]|(Hins & kid & kids & parts & Hkids & Hparts & ->)]].
  - constructor.
  - apply NoDup_singleton.
  - apply (parts_NoDup (kid :: kids)).
    + eapply Forall2_impl; [exact Hparts|].
      intros child part Hchild. split; [exact (IH _ _ Hchild)|].
      intros x Hx.
      apply (walk_result_leaves os d (pid child) part Hchild (pid x)).
      apply list_elem_of_fmap. exists x. auto.
    + rewrite <- Hkids. apply children_NoDup.
    + intros [c1] [c2] q Hk1 Hk2 Hq1 Hq2. f_equal.
      apply (siblings_apart n c1 c2 q Hwf); try assumption;
        (split; [exact Hins|rewrite Hkids; assumption]).
Qed.

End forest_walk.

(** X20: on a process table that is a forest (no process listed twice by
    one parent, no process with two parents), a walk that ends well reports
    no process twice. *)
Theorem walk_reports_once os d root bottom :
  forest os ->
  find_bottom_children os d root = Ok bottom ->
  NoDup bottom.
Proof. intros Hforest Hwalk. exact (walk_NoDup os Hforest d root bottom Hwalk). Qed.

Lemma sample_child_of c p : child_of Sample.machine c p -> p = 1.
Proof.
  intros [Hins Hc]. unfold inspectable, psutil_Process in Hins.
  unfold children in Hc. cbn [pid] in Hc.
  destruct (proc_table Sample.machine !! p) as [entry|] eqn:Hentry;
    [|discriminate].
  cbn [proc_table Sample.machine] in Hentry. unfold Sample.table in Hentry.
  repeat (apply lookup_insert_Some in Hentry as [[<- <-]|[_ Hentry]];
          [first [reflexivity | discriminate Hins | inversion Hc]|]).
  apply lookup_singleton_Some in Hentry as [<- <-]. discriminate Hins.
Qed.

Lemma sample_forest : forest Sample.machine.
Proof.
  split.
  - intros p entry Hentry.
    cbn [proc_table Sample.machine] in Hentry. unfold Sample.table in Hentry.
    repeat (apply lookup_insert_Some in Hentry as [[<- <-]|[_ Hentry]];
            [cbn [children_pids]; apply (bool_decide_unpack _); reflexivity|]).
    apply lookup_singleton_Some in Hentry as [<- <-].
    cbn [children_pids]. apply (bool_decide_unpack _). reflexivity.
  - intros c p1 p2 H1 H2.
    rewrite (sample_child_of c p1 H1), (sample_child_of c p2 H2). reflexivity.
Qed.

Lemma walk_reports_once_witness :
  NoDup [{| pid := 20 |}; {| pid := 30 |}].
Proof.
  apply (walk_reports_once Sample.machine 2 1 _ sample_forest). reflexivity.
Defined.

(** ** The liveness probe *)

(** X21: whenever the probe answers, its answer is true (as a truth value)
    exactly for a pid that has a [/proc] entry, that [psutil] finds, and
    whose process is running. *)
Theorem probe_true_iff_running os n v :
  process_exists os n = Ok v ->
  truth v = true <->
  path_exists os ("/proc/" +:+ str n) = true /\
  inspectable os n /\ is_running os {| pid := n |} = true.
Proof. apply process_exists_truth. Qed.

Lemma probe_true_iff_running_witness :
  (truth (PyBool true) = true <->
   path_exists Sample.machine ("/proc/" +:+ str 1) = true /\
   inspectable Sample.machine 1 /\
   is_running Sample.machine {| pid := 1 |} = true) /\
  (truth PyNone = true <->
   path_exists Sample.machine ("/proc/" +:+ str 30) = true /\
   inspectable Sample.machine 30 /\
   is_running Sample.machine {| pid := 30 |} = true).
Proof.
  split.
  - apply (probe_true_iff_running Sample.machine 1). reflexivity.
  - apply (probe_true_iff_running Sample.machine 30). reflexivity.
Defined.

(** X22: a process that [psutil] refuses to inspect is treated differently
    by the two utilities: the probe lets [AccessDenied] escape, the walker
    swallows it and reports no leaves. *)
Theorem access_denied_probe_and_walker os n d :
  path_exists os ("/proc/" +:+ str n) = true ->
  psutil_Process os n = Raise (AccessDenied n) ->
  process_exists os n = Raise (AccessDenied n) /\
  find_bottom_children os (S d) n = Ok [].
Proof.
  intros Hpath Hdenied. split.
  - apply process_exists_access_denied; assumption.
  - cbn [find_bottom_children]. rewrite Hdenied. reflexivity.
Qed.

Lemma access_denied_probe_and_walker_witness :
  process_exists Lab.machine 40 = Raise (AccessDenied 40) /\
  find_bottom_children Lab.machine 1 40 = Ok [].
Proof.
  apply (access_denied_probe_and_walker Lab.machine 40 0); reflexivity.
Defined.

(** ** The wrapping and the command *)

Lemma assemble_wraps os cmd ns_pid working_dir escalate as_user words :
  tokenize cmd = Ok words ->
  assemble os cmd ns_pid working_dir escalate as_user
  = (fun wrapping => wrapping ++ words)
      <$> assemble os (CmdList []) ns_pid working_dir escalate as_user.
Proof.
  intros Hwords. unfold assemble. rewrite Hwords. cbn [tokenize].
  unfold nsenter, escalation. unfold_monad.
  destruct ns_pid as [p|], (truthy working_dir) as [wd|],
    (truthy as_user) as [user|]; cbn;
    try (destruct (get_uid os user) as [uid|]; cbn; [|reflexivity];
         destruct (get_gid os user) as [gid|]; cbn; [|reflexivity]);
    destruct escalate as [e|]; cbn;
    try destruct (which os (helper_name e)); reflexivity.
Qed.

(** X23: the wrapping is independent of the command: for a command that
    tokenizes, the assembled list is the list assembled for the empty
    command followed by the command's words, and the assembly fails exactly
    as it does for the empty command. *)
Theorem wrapping_independent_of_command os cmd ns_pid working_dir escalate
    as_user words :
  tokenize cmd = Ok words ->
  assemble os cmd ns_pid working_dir escalate as_user
  = (fun wrapping => wrapping ++ words)
      <$> assemble os (CmdList []) ns_pid working_dir escalate as_user.
Proof. apply assemble_wraps. Qed.

Lemma wrapping_independent_of_command_witness :
  assemble Sample.machine (CmdStr "ls 'my file'") (Some 1234) (Some "/srv")
           (Some sudo) (Some "alice")
  = (fun wrapping => wrapping ++ ["ls"; "my file"])
      <$> assemble Sample.machine (CmdList []) (Some 1234) (Some "/srv")
                   (Some sudo) (Some "alice").
Proof.
  apply (wrapping_independent_of_command Sample.machine
           (CmdStr "ls 'my file'")).
  reflexivity.
Defined.





(** ** Entering a namespace through the wrappers *)



(** X26: an empty working directory and an empty user name count as none
    given: [_exec_cmd] does the same with them as without. *)
Theorem empty_strings_count_as_absent os cmd detach capture_output check
    dry_run verbose env ns_pid escalate passthrough t :
  _exec_cmd os cmd detach capture_output check dry_run verbose env ns_pid
            (Some EmptyString) escalate (Some EmptyString) passthrough t
  = _exec_cmd os cmd detach capture_output check dry_run verbose env ns_pid
              None escalate None passthrough t.
Proof. rewrite !exec_cmd_stages. reflexivity. Qed.
